(** * Systemic risk index: cleaning stage and index construction

    A shallow embedding of the two notebooks of the repository:

    - the data-sourcing notebook (consolidation of the Yahoo Finance frame
      and the FRED series, weekly resampling, forward fill, [dropna]);
    - [03-Systemic-Risk-Index-(SRI)-Creation.ipynb] (column selection,
      [StandardScaler], [PCA(n_components=1)], [MinMaxScaler]).

    Tables are pandas frames: an ordered list of column names and a list
    of rows keyed by a date.  Dates are day numbers (day 0 is Thursday
    1970-01-01).  A cell is [None] where pandas holds NaN.

    Numbers are read twice.  [Index] reads them as exact reals: its
    statements about means, deviations and ranges are those of the
    arithmetic the scalers perform, without rounding.  [Machine] reads
    the rescaling in the arithmetic the notebook runs in: binary64
    floats, on which it can be evaluated, and reals with a rounding
    after every operation, on which what survives rounding is proved. *)

From Stdlib Require Import PrimFloat.
From Stdlib Require Uint63.
From Stdlib Require Import String ZArith Bool Lia List Sorted.
From Stdlib Require Import Reals Lra Psatz.
Import ListNotations.

Set Implicit Arguments.
Set Warnings "-inexact-float".

(** ** Frames *)

Module Frame.

Section Cells.

Variable V : Type.

(** A cell holds a value or NaN. *)
Definition cell : Type := option V.

Definition row : Type := (Z * list cell)%type.

(** A series as returned by a data source: dated observations, in
    increasing date order; an observation may itself be NaN. *)
Definition Series : Type := list (Z * cell).

Record DataFrame : Type := mkDF {
  columns : list string;
  rows : list row
}.

(** [pd.DataFrame()] *)
Definition empty_frame : DataFrame := mkDF [] [].

Definition index (df : DataFrame) : list Z := map fst (rows df).

Definition is_value (c : cell) : bool :=
  match c with Some _ => true | None => false end.

(** A row is complete when none of its cells is NaN. *)
Definition complete (r : row) : bool := forallb is_value (snd r).

(** Every row has one cell per column. *)
Definition rectangular (df : DataFrame) : Prop :=
  Forall (fun r : row => length (snd r) = length (columns df)) (rows df).

Fixpoint index_of (key : string) (names : list string) : option nat :=
  match names with
  | [] => None
  | n :: names' =>
      if String.eqb key n then Some O
      else option_map S (index_of key names')
  end.

Definition lookup_row (t : Z) (rs : list row) : option (list cell) :=
  option_map snd (find (fun r : row => Z.eqb (fst r) t) rs).

(** The cell of column [key] at date [t]: NaN when the frame has no
    such row or no such column. *)
Definition at_ (df : DataFrame) (t : Z) (key : string) : cell :=
  match lookup_row t (rows df), index_of key (columns df) with
  | Some r, Some j => nth j r None
  | _, _ => None
  end.

(** The cell of column number [j] in row number [i]. *)
Definition cell_at (rs : list row) (i j : nat) : cell :=
  nth j (snd (nth i rs (0%Z, []))) None.

(** The observation of a series at date [t], NaN when it has none. *)
Definition series_at (s : Series) (t : Z) : cell :=
  match find (fun p : Z * cell => Z.eqb (fst p) t) s with
  | Some p => snd p
  | None => None
  end.

Fixpoint set_nth (j : nat) (c : cell) (r : list cell) : list cell :=
  match r, j with
  | [], _ => []
  | _ :: r', O => c :: r'
  | x :: r', S j' => x :: set_nth j' c r'
  end.

End Cells.

Arguments empty_frame {V}.
Arguments mkDF {V} _ _.

End Frame.

(** ** Stage 1: consolidation and cleaning *)

Module Cleaning.

Import Frame.

Open Scope Z_scope.

(** pandas' [dayofweek]: Monday is 0. *)
Definition weekday (d : Z) : Z := (d + 3) mod 7.

Definition FRI : Z := 4.

(** Label of the weekly bin of [d] for [resample("W-<anchor>")]: the first
    anchor day on or after [d] (bins are closed and labelled on the
    right). *)
Definition week_end (anchor d : Z) : Z := d + (anchor - weekday d) mod 7.

(** Consecutive dates are one calendar week apart. *)
Fixpoint week_apart (l : list Z) : Prop :=
  match l with
  | a :: (b :: _) as l' => b = a + 7 /\ week_apart l'
  | _ => True
  end.

Definition yf_tickers : list string :=
  ["SPY"; "GLD"; "TLT"; "UUP"; "^VIX"; "^MOVE"]%string.

Definition fred_tickers : list (string * string) :=
  [("T10Y2Y", "T10Y2Y"); ("BAMLC0A0CMEY", "BAMLC0A0CMEY");
   ("USRECP", "USRECP")]%string.

Section Pipeline.

Variable V : Type.

Local Abbreviation cell := (cell V).
Local Abbreviation row := (row V).
Local Abbreviation DataFrame := (DataFrame V).
Local Abbreviation Series := (Series V).

(** [df[key] = s] for a Series [s].  A frame whose index is empty takes
    the index of [s] (its columns, if any, are NaN there); otherwise
    [s] is aligned on the index the frame already has: observations
    of [s] at other dates are not stored.  An existing column [key] is
    overwritten, a new one is appended. *)
Definition setitem (df : DataFrame) (key : string) (s : Series)
  : DataFrame :=
  let base :=
    match rows df with
    | [] => map (fun p : Z * cell =>
                   (fst p, repeat (@None V) (length (columns df)))) s
    | rs => rs
    end in
  mkDF
    (match index_of key (columns df) with
     | Some _ => columns df
     | None => columns df ++ [key]
     end)
    (map (fun r : row =>
            (fst r,
             match index_of key (columns df) with
             | Some j => set_nth j (series_at s (fst r)) (snd r)
             | None => snd r ++ [series_at s (fst r)]
             end)) base).

(** The FRED loop:
    [fred_data = pd.DataFrame()]
    [for key, series_id in fred_tickers.items():]
    [    fred_data[key] = fred.get_series(series_id, ...)] *)
Definition fred_frame (get_series : string -> Series) : DataFrame :=
  fold_left (fun df ks => setitem df (fst ks) (get_series (snd ks)))
            fred_tickers empty_frame.

(** Sorted union of two date indexes. *)
Fixpoint insert_date (t : Z) (l : list Z) : list Z :=
  match l with
  | [] => [t]
  | u :: l' =>
      if t <? u then t :: l
      else if t =? u then l
      else u :: insert_date t l'
  end.

Definition union_index (a b : list Z) : list Z :=
  fold_right insert_date [] (a ++ b).

(** The row of [df] at [t] after reindexing: NaN in every column where
    [df] has no row at [t]. *)
Definition reindex_row (df : DataFrame) (t : Z) : list cell :=
  match lookup_row t (rows df) with
  | Some r => r
  | None => repeat None (length (columns df))
  end.

(** [pd.concat([a, b], axis=1, join="outer")] *)
Definition concat_outer (a b : DataFrame) : DataFrame :=
  mkDF (columns a ++ columns b)
       (map (fun t => (t, reindex_row a t ++ reindex_row b t))
            (union_index (index a) (index b))).

(** [GroupBy.last]: the last value of a column within a bin, skipping
    NaN. *)
Definition last_valid (cs : list cell) : cell :=
  fold_left (fun acc c => match c with Some _ => c | None => acc end)
            cs None.

Definition bin_last (ncols : nat) (bin : list row) : list cell :=
  map (fun j => last_valid (map (fun r : row => nth j (snd r) None) bin))
      (seq 0 ncols).

(** [df.resample("W-<anchor>").last()] on a frame indexed in increasing
    date order: one row per week from the bin of the first date to the
    bin of the last one, weeks without observation included. *)
Definition resample_last (anchor : Z) (df : DataFrame) : DataFrame :=
  match rows df with
  | [] => mkDF (columns df) []
  | r0 :: _ =>
      let first := week_end anchor (fst r0) in
      let final := week_end anchor (fst (last (rows df) r0)) in
      let n := Z.to_nat ((final - first) / 7 + 1) in
      mkDF (columns df)
           (map (fun k =>
                   let l := first + 7 * Z.of_nat k in
                   (l, bin_last (length (columns df))
                         (filter (fun r : row =>
                                    week_end anchor (fst r) =? l)
                                 (rows df))))
                (seq 0 n))
  end.

(** Forward fill of one row from the filled row above it. *)
Fixpoint fill_row (prev r : list cell) : list cell :=
  match r with
  | [] => []
  | c :: r' =>
      match c with
      | Some _ => c
      | None => hd None prev
      end :: fill_row (tl prev) r'
  end.

Fixpoint ffill_from (prev : list cell) (rs : list row) : list row :=
  match rs with
  | [] => []
  | r :: rs' =>
      let r' := fill_row prev (snd r) in
      (fst r, r') :: ffill_from r' rs'
  end.

(** [df.ffill()] *)
Definition ffill (df : DataFrame) : DataFrame :=
  mkDF (columns df) (ffill_from [] (rows df)).

(** [df.dropna()]: every row with a NaN cell is dropped. *)
Definition dropna (df : DataFrame) : DataFrame :=
  mkDF (columns df) (filter (@complete V) (rows df)).

(** [all_data]: the consolidation of the two sources. *)
Definition consolidate (yf_data : DataFrame)
           (get_series : string -> Series) : DataFrame :=
  let fred_data := fred_frame get_series in
  concat_outer yf_data fred_data.

(** [weekly_data]: the cleaning cell, with the anchor day as a
    parameter. *)
Definition clean_weekly (anchor : Z) (all_data : DataFrame) : DataFrame :=
  let weekly_data := resample_last anchor all_data in
  dropna (ffill weekly_data).

(** The frame written to [cleaned_market_data.csv]. *)
Definition cleaned_market_data (yf_data : DataFrame)
           (get_series : string -> Series) : DataFrame :=
  clean_weekly FRI (consolidate yf_data get_series).

(** [yf_data.empty]: no row or no column. *)
Definition empty (df : DataFrame) : bool :=
  match columns df, rows df with
  | [], _ => true
  | _, [] => true
  | _, _ => false
  end.

(** Stage 1 as the notebook runs it.  An empty market frame stops the
    run ([sys.exit]).  A FRED frame without a row stops it too: its
    index is not a [DatetimeIndex], so neither is the index
    [pd.concat] returns, and [resample] raises [TypeError].  In both
    cases nothing is written. *)
Definition run_stage1 (yf_data : DataFrame)
           (get_series : string -> Series) : option DataFrame :=
  if empty yf_data then None
  else match rows (fred_frame get_series) with
       | [] => None
       | _ :: _ => Some (cleaned_market_data yf_data get_series)
       end.

(** The truncation rule in the words of the specification: rows are
    dropped from the start until the first row in which every column
    has a value; everything from that row on is kept. *)
Fixpoint drop_leading (rs : list row) : list row :=
  match rs with
  | [] => []
  | r :: rs' => if complete r then rs else drop_leading rs'
  end.

Definition truncate_leading (df : DataFrame) : DataFrame :=
  mkDF (columns df) (drop_leading (rows df)).

End Pipeline.

End Cleaning.

(** ** Stage 2: index construction *)

Module Index.

Import Frame.

Open Scope R_scope.

(** The exceptions the notebook's calls raise. *)
Inductive error : Type :=
| KeyError (missing : list string)
| ValueError (reason : string).

Definition result (A : Type) : Type := (error + A)%type.

Definition bind {A B : Type} (m : result A) (k : A -> result B)
  : result B :=
  match m with
  | inl e => inl e
  | inr a => k a
  end.

Notation "x <- m ;; k" := (bind m (fun x => k))
  (at level 61, m at next level, right associativity).

(** The columns stage 2 selects. *)
Definition risk_factor_names : list string :=
  ["VIX"; "MOVE"; "BAMLC0A0CMEY"]%string.

Definition has_column (cols : list string) (n : string) : bool :=
  existsb (String.eqb n) cols.

Definition missing_columns (names cols : list string) : list string :=
  filter (fun n => negb (has_column cols n)) names.

(** [df[[names]]]: a [KeyError] listing the requested names the frame
    does not have, otherwise the frame restricted to [names]. *)
Definition getitem (df : DataFrame R) (names : list string)
  : result (DataFrame R) :=
  match missing_columns names (columns df) with
  | [] =>
      inr (mkDF names
             (map (fun r : row R =>
                     (fst r,
                      map (fun n =>
                             match index_of n (columns df) with
                             | Some j => nth j (snd r) None
                             | None => None
                             end) names))
                  (rows df)))
  | missing => inl (KeyError missing)
  end.

(** A matrix is held by columns: one list of [N] numbers per feature. *)
Definition matrix : Type := list (list R).

Definition n_samples (X : matrix) : nat := length (hd [] X).

Fixpoint all_values (cs : list (cell R)) : option (list R) :=
  match cs with
  | [] => Some []
  | Some v :: cs' => option_map (cons v) (all_values cs')
  | None :: _ => None
  end.

Fixpoint all_columns (cols : list (list (cell R))) : option matrix :=
  match cols with
  | [] => Some []
  | c :: cols' =>
      match all_values c, all_columns cols' with
      | Some xs, Some X => Some (xs :: X)
      | _, _ => None
      end
  end.

Definition column (j : nat) (df : DataFrame R) : list (cell R) :=
  map (fun r : row R => nth j (snd r) None) (rows df).

(** The numeric array handed to scikit-learn.  A NaN cell passes through
    [StandardScaler] and is refused by [PCA], so the run stops with a
    [ValueError] before anything is produced. *)
Definition to_numpy (df : DataFrame R) : result matrix :=
  match all_columns (map (fun j => column j df)
                         (seq 0 (length (columns df)))) with
  | Some X => inr X
  | None => inl (ValueError "Input X contains NaN.")
  end.

Definition sum (xs : list R) : R := fold_right Rplus 0 xs.

Definition mean (xs : list R) : R := sum xs / INR (length xs).

(** [np.var], population variance ([ddof = 0]), as scikit-learn uses. *)
Definition var (xs : list R) : R :=
  mean (map (fun x => (x - mean xs) * (x - mean xs)) xs).

Definition std (xs : list R) : R := sqrt (var xs).

(** scikit-learn's [_handle_zeros_in_scale]: a zero scale is replaced by
    1, so that a constant feature is left centred instead of divided by
    zero. *)
Definition handle_zeros_in_scale (s : R) : R :=
  if Req_EM_T s 0 then 1 else s.

Definition standardize (xs : list R) : list R :=
  map (fun x => (x - mean xs) / handle_zeros_in_scale (std xs)) xs.

(** [StandardScaler().fit_transform(X)] *)
Definition StandardScaler_fit_transform (X : matrix) : result matrix :=
  if Nat.eqb (n_samples X) 0
  then inl (ValueError "Found array with 0 sample(s)")
  else inr (map standardize X).


Definition data_min (xs : list R) : R :=
  match xs with
  | [] => 0
  | x :: xs' => fold_left Rmin xs' x
  end.

Definition data_max (xs : list R) : R :=
  match xs with
  | [] => 0
  | x :: xs' => fold_left Rmax xs' x
  end.

(** [MinMaxScaler(feature_range=(lo, hi)).fit_transform] on one column:
    [scale_ = (hi - lo) / data_range_], [min_ = lo - data_min_ * scale_],
    output [X * scale_ + min_], here without rounding; [Machine] has the
    same steps with it. *)
Definition MinMaxScaler_fit_transform (lo hi : R) (xs : list R) : list R :=
  let data_range := data_max xs - data_min xs in
  let scale_ := (hi - lo) / handle_zeros_in_scale data_range in
  let min_ := lo - data_min xs * scale_ in
  map (fun x => x * scale_ + min_) xs.

(** What [PCA(n_components=1)] gives back: [components_[0]] and the
    flattened result of [fit_transform]. *)
Record PCAResult : Type := mkPCA {
  components_0 : list R;
  transformed : list R
}.

(** [df[key] = values] for an array: one value per row, a length that
    differs from the index is a [ValueError]. *)
Definition assign_array (df : DataFrame R) (key : string) (vs : list R)
  : result (DataFrame R) :=
  if Nat.eqb (length vs) (length (rows df))
  then inr (mkDF
              (match index_of key (columns df) with
               | Some _ => columns df
               | None => columns df ++ [key]
               end)
              (map (fun rv : row R * R =>
                      (fst (fst rv),
                       match index_of key (columns df) with
                       | Some j => set_nth j (Some (snd rv)) (snd (fst rv))
                       | None => snd (fst rv) ++ [Some (snd rv)]
                       end))
                   (combine (rows df) vs)))
  else inl (ValueError "Length of values does not match length of index").

(** The names the notebook leaves bound after the construction cell. *)
Record Notebook : Type := mkNotebook {
  df_out : DataFrame R;
  sri_raw : list R;
  loadings : list (string * R);
  sri_scaled : list R
}.

Section Construction.

(** scikit-learn's decomposition is taken as given. *)
Variable PCA_fit_transform : matrix -> PCAResult.

(** The construction cell of the notebook, steps 1 to 6. *)
Definition build_sri (df : DataFrame R) : result Notebook :=
  risk_factors <- getitem df risk_factor_names ;;
  X <- to_numpy risk_factors ;;
  scaled_factors <- StandardScaler_fit_transform X ;;
  let pca := PCA_fit_transform scaled_factors in
  let sri_raw := transformed pca in
  let loadings := combine (columns risk_factors) (components_0 pca) in
  let sri_scaled := MinMaxScaler_fit_transform 0 100 sri_raw in
  df' <- assign_array df "SRI" sri_scaled ;;
  inr (mkNotebook df' sri_raw loadings sri_scaled).

End Construction.

(** *** What the decomposition computes

    The first principal axis of [X]: a unit vector along which the
    centred rows have the largest sum of squared projections.  The
    scores are the projections.  The sign is fixed by scikit-learn's
    [svd_flip]: the entry of largest magnitude, the first one on ties, is
    made positive, either among the loadings or, in older releases, among
    the scores. *)

Definition dot (u v : list R) : R :=
  sum (map (fun p => fst p * snd p) (combine u v)).

Definition sumsq (xs : list R) : R := dot xs xs.

Definition center (X : matrix) : matrix :=
  map (fun xs => map (fun x => x - mean xs) xs) X.

(** Row [i] of [X] projected on [v]. *)
Definition project_row (X : matrix) (v : list R) (i : nat) : R :=
  dot (map (fun xs => nth i xs 0) X) v.

Definition project (X : matrix) (v : list R) : list R :=
  map (project_row X v) (seq 0 (n_samples X)).

Definition first_axis (X : matrix) (v : list R) : Prop :=
  length v = length X
  /\ dot v v = 1
  /\ forall w, length w = length X -> dot w w = 1 ->
       sumsq (project (center X) w) <= sumsq (project (center X) v).

Definition largest_is_positive (v : list R) : Prop :=
  exists k, (k < length v)%nat
    /\ (forall j, (j < length v)%nat -> Rabs (nth j v 0) <= Rabs (nth k v 0))
    /\ (forall j, (j < k)%nat -> Rabs (nth j v 0) < Rabs (nth k v 0))
    /\ 0 < nth k v 0.

Definition is_first_component (X : matrix) (r : PCAResult) : Prop :=
  first_axis X (components_0 r)
  /\ transformed r = project (center X) (components_0 r)
  /\ (largest_is_positive (components_0 r)
      \/ largest_is_positive (transformed r)).

End Index.

(** ** The rescaling in the arithmetic of the machine

    The scalers run on numpy arrays of binary64 floats: every operation
    rounds its result.  The rescaling is written here once, over an
    arbitrary arithmetic, with the operations in the order scikit-learn
    applies them, and read in two arithmetics: [binary64], the floats
    themselves, and [rounded rnd], the reals with the rounding [rnd]
    applied after each operation. *)

Module Machine.

(** The operations a scaler uses, named as numpy names them. *)
Record arithmetic : Type := mkArithmetic {
  num : Type;
  add : num -> num -> num;
  subtract : num -> num -> num;
  multiply : num -> num -> num;
  divide : num -> num -> num;
  minimum : num -> num -> num;
  maximum : num -> num -> num;
  is_zero : num -> bool;
  of_nat : nat -> num
}.

Section Scalers.

Variable A : arithmetic.

Definition data_min (xs : list (num A)) : num A :=
  match xs with
  | [] => of_nat A 0
  | x :: xs' => fold_left (minimum A) xs' x
  end.

Definition data_max (xs : list (num A)) : num A :=
  match xs with
  | [] => of_nat A 0
  | x :: xs' => fold_left (maximum A) xs' x
  end.

Definition handle_zeros_in_scale (s : num A) : num A :=
  if is_zero A s then of_nat A 1 else s.

(** [MinMaxScaler(feature_range=(lo, hi)).fit_transform] on one column:
    [scale_ = (hi - lo) / data_range_], [min_ = lo - data_min_ * scale_],
    then [X *= scale_] and [X += min_]. *)
Definition MinMaxScaler_fit_transform (lo hi : num A)
           (xs : list (num A)) : list (num A) :=
  let data_range := subtract A (data_max xs) (data_min xs) in
  let scale_ :=
    divide A (subtract A hi lo) (handle_zeros_in_scale data_range) in
  let min_ := subtract A lo (multiply A (data_min xs) scale_) in
  map (fun x => add A (multiply A x scale_) min_) xs.

(** The centring step of [StandardScaler]: [mean_] is the sum of the
    column, accumulated row after row, over the number of rows, and
    [transform] starts with [X -= mean_]. *)
Definition sum (xs : list (num A)) : num A :=
  fold_left (add A) xs (of_nat A 0).

Definition mean (xs : list (num A)) : num A :=
  divide A (sum xs) (of_nat A (length xs)).

Definition subtract_mean (xs : list (num A)) : list (num A) :=
  map (fun x => subtract A x (mean xs)) xs.

End Scalers.

(** IEEE 754 binary64, rounding to nearest: the floats of numpy. *)
Definition binary64 : arithmetic :=
  mkArithmetic PrimFloat.add PrimFloat.sub PrimFloat.mul PrimFloat.div
    (fun x y => if PrimFloat.ltb y x then y else x)
    (fun x y => if PrimFloat.ltb x y then y else x)
    (fun s => PrimFloat.eqb s 0%float)
    (fun n => PrimFloat.of_uint63 (Uint63.of_Z (Z.of_nat n))).

(** The reals with a rounding after each operation: floats as long as
    no operation overflows, since a rounded real is never infinite or
    NaN.  Comparisons are exact, as they are on floats. *)
Definition rounded (rnd : R -> R) : arithmetic :=
  mkArithmetic (fun x y => rnd (x + y)%R) (fun x y => rnd (x - y)%R)
    (fun x y => rnd (x * y)%R) (fun x y => rnd (x / y)%R)
    Rmin Rmax
    (fun s => if Req_EM_T s 0%R then true else false)
    INR.

End Machine.

(** ** Sample inputs *)

Module Samples.

Import Frame Cleaning Index.

Open Scope R_scope.

(** Four trading days of March and April 2000 as Yahoo Finance returns
    them, one column per ticker: Wednesday 2000-03-01 is day 11017,
    Friday 2000-03-31 day 11047, Monday 2000-04-03 day 11050 and Friday
    2000-04-07 day 11054. *)
Definition yf_sample : DataFrame R :=
  mkDF yf_tickers
       [(11017%Z, [Some 145; Some 28; Some 93; Some 24; Some 24; Some 99]);
        (11047%Z, [Some 140; Some 28; Some 94; Some 24; Some 27; Some 101]);
        (11050%Z, [Some 146; Some 28; Some 92; Some 24; Some 22; Some 97]);
        (11054%Z, [Some 144; Some 29; Some 93; Some 24; Some 26; Some 98])].

(** The FRED series: two daily ones, and the monthly recession
    indicator, dated on the first of the month; 2000-04-01, day 11048,
    is a Saturday. *)
Definition fred_sample (series_id : string) : Series R :=
  if String.eqb series_id "T10Y2Y" then
    [(11017%Z, Some (-1)); (11047%Z, Some (-1)); (11050%Z, Some 0);
     (11054%Z, Some 0)]
  else if String.eqb series_id "BAMLC0A0CMEY" then
    [(11017%Z, Some 8); (11047%Z, Some 8); (11050%Z, Some 7);
     (11054%Z, Some 8)]
  else if String.eqb series_id "USRECP" then
    [(11017%Z, Some 0); (11048%Z, Some 1)]
  else [].

(** A weekly panel whose second column starts two weeks late and whose
    first column has a gap. *)
Definition late_start_panel : DataFrame nat :=
  mkDF ["A"; "B"]%string
       [(8%Z, [Some 1%nat; None]);
        (15%Z, [None; None]);
        (22%Z, [Some 3%nat; Some 7%nat]);
        (29%Z, [None; Some 8%nat]);
        (36%Z, [Some 5%nat; None])].



(** A latent factor over three weeks. *)
Definition factor_sample : list R := [1; 3; 2].

(** A stage-2 input with the three columns the construction selects:
    VIX falls when the two other indicators rise. *)
Definition sri_input : DataFrame R :=
  mkDF ["VIX"; "MOVE"; "BAMLC0A0CMEY"]%string
       [(10963%Z, [Some 19; Some 103; Some 8]);
        (10970%Z, [Some 20; Some 98; Some 3]);
        (10977%Z, [Some 23; Some 99; Some 4]);
        (10984%Z, [Some 18; Some 100; Some 5])].

Definition sri_matrix : matrix :=
  [[19; 20; 23; 18]; [103; 98; 99; 100]; [8; 3; 4; 5]].

(** Its columns have means 20, 100 and 5 and the same variance 7/2. *)
Definition sri_sigma : R := sqrt (7 / 2).

Definition sri_standardized : matrix :=
  [map (fun x => (x - 20) / sri_sigma) [19; 20; 23; 18];
   map (fun x => (x - 100) / sri_sigma) [103; 98; 99; 100];
   map (fun x => (x - 5) / sri_sigma) [8; 3; 4; 5]].

(** The first principal axis of the standardized [sri_matrix] and the
    scores along it. *)
Definition sri_axis : list R := [-2 / sqrt 22; 3 / sqrt 22; 3 / sqrt 22].

Definition sri_pca (X : matrix) : PCAResult :=
  mkPCA sri_axis (project (center X) sri_axis).

(** A daily panel over two weeks: Monday 1970-01-05 is day 4, the
    Fridays are days 8 and 15. *)
Definition daily_panel : DataFrame nat :=
  mkDF ["A"; "B"]%string
       [(4%Z, [Some 1%nat; None]);
        (6%Z, [Some 2%nat; Some 9%nat]);
        (8%Z, [None; None]);
        (12%Z, [Some 4%nat; None])].

(** FRED series in which the monthly indicator is dated on a Saturday
    only, a day the daily series do not have. *)
Definition fred_unaligned (series_id : string) : Series R :=
  if String.eqb series_id "T10Y2Y" then
    [(11047%Z, Some (-1)); (11050%Z, Some 0)]
  else if String.eqb series_id "BAMLC0A0CMEY" then
    [(11047%Z, Some 8); (11050%Z, Some 7)]
  else if String.eqb series_id "USRECP" then
    [(11048%Z, Some 1)]
  else [].

(** Stage-2 inputs: the three columns among others and in another
    order; no row; a NaN under [MOVE]; an [SRI] column already there;
    and three columns that do not vary. *)
Definition wide_input : DataFrame R :=
  mkDF ["SPY"; "BAMLC0A0CMEY"; "VIX"; "MOVE"]%string
       [(10963%Z, [Some 145; Some 8; Some 19; Some 103]);
        (10970%Z, [Some 140; Some 3; Some 20; Some 98])].

Definition no_rows_input : DataFrame R :=
  mkDF ["VIX"; "MOVE"; "BAMLC0A0CMEY"]%string [].

Definition nan_input : DataFrame R :=
  mkDF ["VIX"; "MOVE"; "BAMLC0A0CMEY"]%string
       [(10963%Z, [Some 19; Some 103; Some 8]);
        (10970%Z, [Some 20; None; Some 3])].

Definition rerun_input : DataFrame R :=
  mkDF ["VIX"; "MOVE"; "BAMLC0A0CMEY"; "SRI"]%string
       [(10963%Z, [Some 19; Some 103; Some 8; Some 50]);
        (10970%Z, [Some 20; Some 98; Some 3; Some 0]);
        (10977%Z, [Some 23; Some 99; Some 4; Some 100]);
        (10984%Z, [Some 18; Some 100; Some 5; Some 25])].

Definition flat_input : DataFrame R :=
  mkDF ["VIX"; "MOVE"; "BAMLC0A0CMEY"]%string
       [(10963%Z, [Some 20; Some 100; Some 5]);
        (10970%Z, [Some 20; Some 100; Some 5])].

(** Decompositions used as examples: one that returns zero scores, as on
    a matrix of zeros, and [sri_pca] with the opposite sign. *)
Definition flat_pca (X : matrix) : PCAResult :=
  mkPCA [1; 0; 0] (map (fun _ => 0) (hd [] X)).

Definition neg_pca (X : matrix) : PCAResult :=
  mkPCA (map Ropp (components_0 (sri_pca X)))
        (map Ropp (transformed (sri_pca X))).


Definition close_scores : list PrimFloat.float :=
  [(-3)%float; 0.5%float; 0.5000000000000001%float; 5%float].

Definition far_scores : list PrimFloat.float :=
  [10000000000000000%float; 10000000000000002%float].

(** A column constant at 0.1 over three rows. *)
Definition tenths : list PrimFloat.float :=
  [0.1%float; 0.1%float; 0.1%float].

(** A rounding that is easy to follow by hand: down to the integer
    below. *)
Definition round_down (x : R) : R := IZR (Zfloor x).

Definition thirds : list R := [0; 3; 1].

End Samples.

(** ** Facts about the cleaning stage *)

Module CleaningFacts.

Import Frame Cleaning.

Open Scope Z_scope.

Section Facts.

Variable V : Type.

Local Abbreviation cell := (cell V).
Local Abbreviation row := (row V).
Local Abbreviation DataFrame := (DataFrame V).

(** *** Forward fill *)

Lemma fill_row_length (prev r : list cell) :
  length (fill_row prev r) = length r.
Proof.
  revert prev; induction r as [|c r IH]; intros prev; simpl; auto.
Qed.

Lemma fill_row_idem (prev r : list cell) :
  fill_row prev (fill_row prev r) = fill_row prev r.
Proof.
  revert prev; induction r as [|c r IH]; intros prev; simpl; auto.
  rewrite IH. f_equal.
  destruct c as [v|]; [reflexivity|].
  destruct (hd None prev); reflexivity.
Qed.

Lemma ffill_from_idem (rs : list row) :
  forall prev, ffill_from prev (ffill_from prev rs) = ffill_from prev rs.
Proof.
  induction rs as [|r rs IH]; intros prev; simpl; auto.
  rewrite fill_row_idem, IH. reflexivity.
Qed.

Lemma ffill_from_index (rs : list row) :
  forall prev, map fst (ffill_from prev rs) = map fst rs.
Proof.
  induction rs as [|r rs IH]; intros prev; simpl; auto.
  now rewrite IH.
Qed.

Lemma fill_row_complete (r : list cell) :
  forall prev,
    forallb (@is_value V) prev = true ->
    (length r <= length prev)%nat ->
    forallb (@is_value V) (fill_row prev r) = true.
Proof.
  induction r as [|c r IH]; intros prev Hp Hl; simpl; auto.
  destruct prev as [|p prev]; simpl in *; [lia|].
  apply andb_true_iff in Hp as [Hp1 Hp2].
  apply andb_true_iff; split.
  - destruct c; auto.
  - apply IH; auto. lia.
Qed.

(** Below a complete row, forward fill leaves no NaN. *)
Lemma ffill_from_complete (n : nat) (rs : list row) :
  forall prev,
    forallb (@is_value V) prev = true ->
    length prev = n ->
    Forall (fun r : row => length (snd r) = n) rs ->
    Forall (fun r : row => complete r = true) (ffill_from prev rs).
Proof.
  induction rs as [|r rs IH]; intros prev Hp Hn Hrs; simpl; constructor;
    inversion Hrs; subst.
  - unfold complete; simpl. apply fill_row_complete; auto. lia.
  - apply IH; auto.
    + apply fill_row_complete; auto. lia.
    + rewrite fill_row_length. congruence.
Qed.

Lemma filter_all (A : Type) (f : A -> bool) (l : list A) :
  Forall (fun x => f x = true) l -> filter f l = l.
Proof.
  induction 1 as [|x l Hx _ IH]; simpl; auto.
  now rewrite Hx, IH.
Qed.

Lemma dropna_ffill_from (n : nat) (rs : list row) :
  forall prev,
    Forall (fun r : row => length (snd r) = n) rs ->
    filter (@complete V) (ffill_from prev rs)
    = drop_leading (ffill_from prev rs).
Proof.
  induction rs as [|r rs IH]; intros prev Hrs; simpl; auto.
  inversion Hrs as [|? ? Hr Hrs']; subst.
  destruct (complete (fst r, fill_row prev (snd r))) eqn:Hc.
  - f_equal. apply filter_all.
    apply ffill_from_complete with (n := length (snd r)); auto.
    apply fill_row_length.
  - apply IH; auto.
Qed.

(** Forward fill cell by cell: the value of a column in a row, or else
    the value the filled row above has in that column. *)
Lemma fill_row_nth (r : list cell) :
  forall prev j,
    (j < length r)%nat ->
    nth j (fill_row prev r) None
    = match nth j r None with
      | Some v => Some v
      | None => nth j prev None
      end.
Proof.
  induction r as [|c r IH]; intros prev j Hj; simpl in Hj; [lia|].
  destruct j as [|j]; simpl.
  - destruct c; auto. destruct prev; reflexivity.
  - rewrite IH by lia. destruct (nth j r None); auto.
    destruct prev as [|p prev]; simpl; auto. destruct j; reflexivity.
Qed.

(** What forward fill leaves in a cell: the nearest value at or above it
    in the same column, NaN when there is none. *)
Lemma ffill_from_cell (n j : nat) (rs : list row) :
  forall prev i,
    Forall (fun r : row => length (snd r) = n) rs ->
    (j < n)%nat -> (i < length rs)%nat ->
    nth j (snd (nth i (ffill_from prev rs) (0, []))) None
    = fold_left (fun acc c => match c with Some _ => c | None => acc end)
                (map (fun r : row => nth j (snd r) None)
                     (firstn (S i) rs))
                (nth j prev None).
Proof.
  induction rs as [|r rs IH]; intros prev i Hrs Hj Hi; simpl in Hi; [lia|].
  inversion Hrs as [|? ? Hr Hrs']; subst.
  assert (Hc : nth j (fill_row prev (snd r)) None
               = match nth j (snd r) None with
                 | Some v => Some v
                 | None => nth j prev None
                 end) by (apply fill_row_nth; lia).
  destruct i as [|i].
  - simpl. rewrite Hc. destruct (nth j (snd r) None); reflexivity.
  - change (ffill_from prev (r :: rs))
      with ((fst r, fill_row prev (snd r))
              :: ffill_from (fill_row prev (snd r)) rs).
    cbn [nth]. rewrite IH by (auto; lia). rewrite Hc.
    rewrite firstn_cons. cbn [map fold_left].
    destruct (nth j (snd r) None); reflexivity.
Qed.

Lemma ffill_cell (df : DataFrame) (i j : nat) :
  rectangular df ->
  (j < length (columns df))%nat -> (i < length (rows df))%nat ->
  nth j (snd (nth i (rows (ffill df)) (0, []))) None
  = last_valid (map (fun r : row => nth j (snd r) None)
                    (firstn (S i) (rows df))).
Proof.
  intros Hr Hj Hi. unfold ffill, last_valid. cbn [rows].
  rewrite (@ffill_from_cell (length (columns df)) j (rows df) [] i)
    by assumption.
  destruct j; reflexivity.
Qed.

(** *** Leading-row truncation keeps a suffix *)

Lemma drop_leading_suffix (rs : list row) :
  exists pre, rs = pre ++ drop_leading rs.
Proof.
  induction rs as [|r rs [pre IH]]; simpl.
  - now exists [].
  - destruct (complete r).
    + now exists [].
    + exists (r :: pre). simpl. now f_equal.
Qed.

Lemma week_apart_tail (a : Z) (l : list Z) :
  week_apart (a :: l) -> week_apart l.
Proof. destruct l; simpl; tauto. Qed.

Lemma week_apart_suffix (pre l : list Z) :
  week_apart (pre ++ l) -> week_apart l.
Proof.
  induction pre as [|a pre IH]; simpl; auto.
  intros H. apply IH. exact (week_apart_tail _ _ H).
Qed.

Lemma week_apart_lt (l : list Z) :
  week_apart l -> Sorted Z.lt l.
Proof.
  induction l as [|a l IH]; intros H; constructor.
  - apply IH. exact (week_apart_tail _ _ H).
  - destruct l as [|b l]; constructor. simpl in H. lia.
Qed.

(** *** Weekly bins *)

Lemma weekday_week_end (anchor d : Z) :
  0 <= anchor < 7 -> weekday (week_end anchor d) = anchor.
Proof.
  intros Ha. unfold week_end, weekday.
  Z.div_mod_to_equations. lia.
Qed.

Lemma weekday_plus_weeks (d k : Z) : weekday (d + 7 * k) = weekday d.
Proof.
  unfold weekday. replace (d + 7 * k + 3) with (d + 3 + k * 7) by lia.
  apply Z.mod_add. lia.
Qed.

Lemma week_apart_progression (first : Z) (n s : nat) :
  week_apart (map (fun k => first + 7 * Z.of_nat k) (seq s n)).
Proof.
  revert s; induction n as [|n IH]; intros s; [exact I|].
  specialize (IH (S s)). destruct n as [|n]; [exact I|].
  cbn [seq map week_apart] in *. split; [lia|exact IH].
Qed.

Lemma resample_index (anchor : Z) (df : DataFrame) :
  exists first n,
    index (resample_last anchor df)
    = map (fun k => week_end anchor first + 7 * Z.of_nat k) (seq 0 n).
Proof.
  unfold resample_last, index. destruct (rows df) as [|r0 rs].
  - exists 0, O. reflexivity.
  - eexists (fst r0), _. simpl rows. rewrite map_map. simpl. reflexivity.
Qed.

Lemma bin_last_length (n : nat) (bin : list row) :
  length (bin_last n bin) = n.
Proof. unfold bin_last. now rewrite length_map, length_seq. Qed.

Lemma resample_rectangular (anchor : Z) (df : DataFrame) :
  rectangular (resample_last anchor df).
Proof.
  unfold rectangular, resample_last. destruct (rows df) as [|r0 rs].
  - constructor.
  - simpl. apply Forall_forall. intros r Hr.
    apply in_map_iff in Hr as [k [<- _]]. simpl. apply bin_last_length.
Qed.

Lemma ffill_from_lengths (n : nat) (rs : list row) :
  forall prev,
    Forall (fun r : row => length (snd r) = n) rs ->
    Forall (fun r : row => length (snd r) = n) (ffill_from prev rs).
Proof.
  induction rs as [|r rs IH]; intros prev Hrs; simpl; constructor;
    inversion Hrs; subst; auto.
  simpl. apply fill_row_length.
Qed.

Lemma complete_no_nan (r : row) :
  complete r = true -> forall c, In c (snd r) -> c <> None.
Proof.
  unfold complete. intros H c Hc.
  rewrite forallb_forall in H. specialize (H c Hc).
  destruct c; [discriminate|discriminate H].
Qed.

(** The cleaning cell for any anchor day: the rows kept are complete and
    rectangular, and their dates are the consecutive anchor days of a
    stretch of weeks. *)
Lemma clean_weekly_dense_weekly (anchor : Z) (all_data : DataFrame) :
  0 <= anchor < 7 ->
  let out := clean_weekly anchor all_data in
  (forall r, In r (rows out) ->
     length (snd r) = length (columns out)
     /\ forall c, In c (snd r) -> c <> None)
  /\ Sorted Z.lt (index out)
  /\ week_apart (index out)
  /\ Forall (fun t => weekday t = anchor) (index out).
Proof.
  intros Ha out.
  pose proof (resample_rectangular anchor all_data) as Hrect.
  destruct (resample_index anchor all_data) as [first [n Hidx]].
  set (wk := resample_last anchor all_data) in *.
  assert (Hrows : rows out = drop_leading (ffill_from [] (rows wk))).
  { unfold out, clean_weekly, dropna. simpl.
    apply dropna_ffill_from with (n := length (columns wk)). exact Hrect. }
  assert (Hcols : columns out = columns wk) by reflexivity.
  destruct (drop_leading_suffix (ffill_from [] (rows wk))) as [pre Hpre].
  assert (Hsuf : index wk = map fst pre ++ index out).
  { unfold index at 1. rewrite <- (ffill_from_index (rows wk) []).
    rewrite Hpre at 1. rewrite map_app. unfold index. now rewrite Hrows. }
  assert (Hwk : week_apart (index out)).
  { apply week_apart_suffix with (pre := map fst pre).
    rewrite <- Hsuf, Hidx. apply week_apart_progression. }
  repeat split.
  - rewrite Hcols. rewrite Hrows in H.
    assert (Hin : In r (ffill_from [] (rows wk))).
    { rewrite Hpre. apply in_or_app. now right. }
    pose proof (ffill_from_lengths [] Hrect) as Hl.
    rewrite Forall_forall in Hl. exact (Hl r Hin).
  - unfold out, clean_weekly, dropna in H. simpl in H.
    apply filter_In in H as [_ Hc]. now apply complete_no_nan.
  - now apply week_apart_lt.
  - exact Hwk.
  - apply Forall_forall. intros t Ht.
    assert (Hin : In t (index wk)).
    { rewrite Hsuf. apply in_or_app. now right. }
    rewrite Hidx in Hin. apply in_map_iff in Hin as [k [<- _]].
    rewrite weekday_plus_weeks. now apply weekday_week_end.
Qed.

(** C9.  Forward fill is idempotent: filling a panel that has already
    been forward-filled changes nothing. *)
Theorem ffill_idempotent (df : DataFrame) : ffill (ffill df) = ffill df.
Proof.
  unfold ffill. simpl. f_equal. apply ffill_from_idem.
Qed.

(** C6.  On a forward-filled panel, dropping every row that has a NaN
    ([dropna], as the notebook does) gives the table obtained by dropping
    only the leading rows up to the first complete row. *)
Theorem dropna_refines_truncation (df : DataFrame) :
  rectangular df ->
  dropna (ffill df) = truncate_leading (ffill df).
Proof.
  intros Hrect. unfold dropna, truncate_leading. f_equal.
  unfold ffill. simpl.
  apply dropna_ffill_from with (n := length (columns df)). exact Hrect.
Qed.

(** C5.  The frame stage 1 writes has no NaN in any retained row, one
    cell per column in each of them, and a strictly increasing index of
    Fridays one week apart. *)
Theorem cleaned_panel_dense_weekly
        (yf_data : DataFrame) (get_series : string -> Series V) :
  let out := cleaned_market_data yf_data get_series in
  (forall r, In r (rows out) ->
     length (snd r) = length (columns out)
     /\ forall c, In c (snd r) -> c <> None)
  /\ Sorted Z.lt (index out)
  /\ week_apart (index out)
  /\ Forall (fun t => weekday t = FRI) (index out).
Proof.
  unfold cleaned_market_data.
  apply clean_weekly_dense_weekly. unfold FRI. lia.
Qed.

(** *** Consolidation *)

Lemma insert_date_In (t u : Z) (l : list Z) :
  In t (insert_date u l) <-> t = u \/ In t l.
Proof.
  induction l as [|x l IH]; simpl.
  - intuition.
  - destruct (Z.ltb_spec u x); [simpl; intuition|].
    destruct (Z.eqb_spec u x); simpl; [subst; intuition|].
    rewrite IH. intuition.
Qed.

Lemma union_index_In (t : Z) (a b : list Z) :
  In t (union_index a b) <-> In t a \/ In t b.
Proof.
  unfold union_index. rewrite <- in_app_iff.
  induction (a ++ b) as [|x l IH]; simpl; [tauto|].
  rewrite insert_date_In, IH. intuition.
Qed.

Lemma concat_index (a b : DataFrame) :
  index (concat_outer a b) = union_index (index a) (index b).
Proof.
  unfold concat_outer, index at 1. simpl. rewrite map_map. simpl.
  apply map_id.
Qed.

(** What [pd.concat(..., join="outer")] itself guarantees for the two
    frames it is given: the columns of both, and a row for every date
    of either. *)
Lemma concat_outer_union (a b : DataFrame) :
  (forall c, In c (columns (concat_outer a b))
             <-> In c (columns a) \/ In c (columns b))
  /\ (forall t, In t (index (concat_outer a b))
              <-> In t (index a) \/ In t (index b)).
Proof.
  split.
  - intros c. simpl. apply in_app_iff.
  - intros t. rewrite concat_index. apply union_index_In.
Qed.

Lemma lookup_row_built (f : Z -> list cell) (t : Z) (l : list Z) :
  lookup_row t (map (fun u => (u, f u)) l)
  = if in_dec Z.eq_dec t l then Some (f t) else None.
Proof.
  unfold lookup_row. induction l as [|u l IH]; simpl; auto.
  destruct (Z.eqb_spec u t) as [->|Hne]; simpl.
  - destruct (Z.eq_dec t t); [reflexivity|congruence].
  - rewrite IH. destruct (Z.eq_dec u t); [congruence|].
    destruct (in_dec Z.eq_dec t l); reflexivity.
Qed.

Lemma lookup_row_absent (t : Z) (rs : list row) :
  ~ In t (map fst rs) -> lookup_row t rs = None.
Proof.
  unfold lookup_row. induction rs as [|r rs IH]; simpl; auto.
  intros H. destruct (Z.eqb_spec (fst r) t); [tauto|]. apply IH. tauto.
Qed.

Lemma lookup_row_In (t : Z) (rs : list row) (r : list cell) :
  lookup_row t rs = Some r -> In (t, r) rs.
Proof.
  unfold lookup_row. induction rs as [|[u x] rs IH]; simpl; [discriminate|].
  destruct (Z.eqb_spec u t) as [->|Hne]; simpl.
  - intros [= ->]. now left.
  - intros H. right. now apply IH.
Qed.

Lemma reindex_row_length (df : DataFrame) (t : Z) :
  rectangular df -> length (reindex_row df t) = length (columns df).
Proof.
  intros Hr. unfold reindex_row.
  destruct (lookup_row t (rows df)) as [r|] eqn:E.
  - apply lookup_row_In in E. unfold rectangular in Hr.
    rewrite Forall_forall in Hr. exact (Hr _ E).
  - apply repeat_length.
Qed.

Lemma nth_repeat_None (j n : nat) : nth j (repeat (@None V) n) None = None.
Proof.
  revert j; induction n as [|n IH]; intros [|j]; simpl; auto.
Qed.

Lemma at_reindex (df : DataFrame) (t : Z) (c : string) :
  at_ df t c = match index_of c (columns df) with
               | Some j => nth j (reindex_row df t) None
               | None => None
               end.
Proof.
  unfold at_, reindex_row. destruct (lookup_row t (rows df)); auto.
  destruct (index_of c (columns df)); auto.
  now rewrite nth_repeat_None.
Qed.

Lemma index_of_bound (c : string) (l : list string) (j : nat) :
  index_of c l = Some j -> (j < length l)%nat.
Proof.
  revert j; induction l as [|x l IH]; intros j; simpl; [discriminate|].
  destruct (String.eqb c x).
  - intros [= <-]. lia.
  - destruct (index_of c l) as [k|]; simpl; [|discriminate].
    intros [= <-]. specialize (IH k eq_refl). lia.
Qed.

Lemma index_of_In (c : string) (l : list string) :
  In c l <-> index_of c l <> None.
Proof.
  induction l as [|x l IH]; simpl; [intuition|].
  destruct (String.eqb_spec c x) as [->|Hne].
  - split; [discriminate|now left].
  - destruct (index_of c l); simpl; split; try discriminate.
    + intros _. right. apply IH. discriminate.
    + intros [E|H]; [congruence|]. now apply IH.
    + intros H. now elim H.
Qed.

Lemma index_of_app (c : string) (a b : list string) :
  index_of c (a ++ b)
  = match index_of c a with
    | Some j => Some j
    | None => option_map (Nat.add (length a)) (index_of c b)
    end.
Proof.
  induction a as [|x a IH]; simpl.
  - destruct (index_of c b); reflexivity.
  - destruct (String.eqb c x); auto. rewrite IH.
    destruct (index_of c a); simpl; auto.
    destruct (index_of c b); reflexivity.
Qed.

(** The cells of the concatenation are those of the two frames: NaN
    exactly where the frame that owns the column has no value at that
    date. *)
Lemma concat_outer_cells (a b : DataFrame) (t : Z) (c : string) :
  rectangular a ->
  at_ (concat_outer a b) t c
  = if in_dec string_dec c (columns a) then at_ a t c else at_ b t c.
Proof.
  intros Ha. unfold at_ at 1. unfold concat_outer. cbn [rows columns].
  rewrite lookup_row_built, index_of_app.
  destruct (in_dec Z.eq_dec t (union_index (index a) (index b)))
    as [Hin|Hout].
  - rewrite !at_reindex.
    destruct (index_of_In c (columns a)) as [Hc1 Hc2].
    destruct (in_dec string_dec c (columns a)) as [Hc|Hc].
    + specialize (Hc1 Hc).
      destruct (index_of c (columns a)) as [j|] eqn:E; [|congruence].
      apply app_nth1. rewrite reindex_row_length; auto.
      now apply index_of_bound with (c := c).
    + destruct (index_of c (columns a)) as [j|] eqn:E.
      * elim Hc. apply Hc2. discriminate.
      * destruct (index_of c (columns b)) as [j|]; simpl; auto.
        rewrite <- (reindex_row_length t Ha). apply app_nth2_plus.
  - rewrite union_index_In in Hout.
    assert (Hla : lookup_row t (rows a) = None)
      by (apply lookup_row_absent; tauto).
    assert (Hlb : lookup_row t (rows b) = None)
      by (apply lookup_row_absent; tauto).
    unfold at_. rewrite Hla, Hlb.
    destruct (in_dec string_dec c (columns a)); reflexivity.
Qed.

Lemma setitem_index_empty (df : DataFrame) (key : string) (s : Series V) :
  rows df = [] -> index (setitem df key s) = map fst s.
Proof.
  intros E. unfold setitem, index. simpl. rewrite E, !map_map. simpl.
  reflexivity.
Qed.

Lemma setitem_index_keep (df : DataFrame) (key : string) (s : Series V) :
  rows df <> [] -> index (setitem df key s) = index df.
Proof.
  intros E. unfold setitem, index. simpl. rewrite map_map. simpl.
  destruct (rows df); [congruence|reflexivity].
Qed.

Lemma index_nonempty (df : DataFrame) :
  index df <> [] -> rows df <> [].
Proof. unfold index. destruct (rows df); simpl; congruence. Qed.

(** The FRED frame keeps the dates of its first series only. *)
Lemma fred_frame_index (get_series : string -> Series V) :
  get_series "T10Y2Y"%string <> [] ->
  index (fred_frame get_series) = map fst (get_series "T10Y2Y"%string).
Proof.
  intros Hne. unfold fred_frame, fred_tickers. cbn [fold_left fst snd].
  assert (H1 : index (setitem empty_frame "T10Y2Y"
                              (get_series "T10Y2Y"%string))
               = map fst (get_series "T10Y2Y"%string))
    by now apply setitem_index_empty.
  assert (Hn : map fst (get_series "T10Y2Y"%string) <> [])
    by (destruct (get_series "T10Y2Y"%string); simpl; congruence).
  set (f1 := setitem empty_frame "T10Y2Y" _) in *.
  assert (H2 : index (setitem f1 "BAMLC0A0CMEY"
                              (get_series "BAMLC0A0CMEY"%string))
               = index f1).
  { apply setitem_index_keep, index_nonempty. congruence. }
  rewrite setitem_index_keep; [congruence|].
  apply index_nonempty. congruence.
Qed.

(** A date at which only a later FRED series has an observation gets no
    row in the consolidated frame. *)
Lemma consolidate_misses (yf_data : DataFrame)
      (get_series : string -> Series V) (t : Z) :
  get_series "T10Y2Y"%string <> [] ->
  ~ In t (index yf_data) ->
  ~ In t (map fst (get_series "T10Y2Y"%string)) ->
  ~ In t (index (consolidate yf_data get_series)).
Proof.
  intros Hne Hy Hf Hin. unfold consolidate in Hin.
  rewrite concat_index, union_index_In, fred_frame_index in Hin; tauto.
Qed.

End Facts.

(** C7, on the code.  The recession indicator has an observation dated
    Saturday 2000-04-01; the first FRED series and the market frame have
    no row that day.  The consolidated frame has no row for it either,
    and the cleaned frame still shows the March value a week later. *)
Theorem consolidate_drops_fred_dates :
  series_at (Samples.fred_sample "USRECP") 11048 = Some 1%R
  /\ index (consolidate Samples.yf_sample Samples.fred_sample)
     = [11017; 11047; 11050; 11054]
  /\ ~ In 11048 (index (consolidate Samples.yf_sample Samples.fred_sample))
  /\ at_ (cleaned_market_data Samples.yf_sample Samples.fred_sample)
         11054 "USRECP" = Some 0%R.
Proof.
  assert (Hi : index (consolidate Samples.yf_sample Samples.fred_sample)
               = [11017; 11047; 11050; 11054]) by reflexivity.
  split; [reflexivity|]. split; [exact Hi|]. split.
  - rewrite Hi. simpl. intuition discriminate.
  - reflexivity.
Qed.

(** The cleaned sample: six Fridays from 2000-03-03 to 2000-04-07, nine
    columns. *)
Example cleaned_sample_index :
  index (cleaned_market_data Samples.yf_sample Samples.fred_sample)
  = [11019; 11026; 11033; 11040; 11047; 11054]
  /\ columns (cleaned_market_data Samples.yf_sample Samples.fred_sample)
     = ["SPY"; "GLD"; "TLT"; "UUP"; "^VIX"; "^MOVE"; "T10Y2Y";
        "BAMLC0A0CMEY"; "USRECP"]%string.
Proof. split; reflexivity. Qed.

Lemma late_start_rectangular : rectangular Samples.late_start_panel.
Proof. repeat constructor. Qed.

Lemma dropna_refines_truncation_witness :
  rectangular Samples.late_start_panel
  /\ dropna (ffill Samples.late_start_panel)
     = truncate_leading (ffill Samples.late_start_panel).
Proof.
  split.
  - exact late_start_rectangular.
  - apply dropna_refines_truncation. exact late_start_rectangular.
Defined.

(** The cleaning cell on the late-starting panel: the two leading weeks
    go, the gaps are filled. *)
Example clean_late_start :
  dropna (ffill Samples.late_start_panel)
  = mkDF ["A"; "B"]%string
         [(22, [Some 3%nat; Some 7%nat]);
          (29, [Some 3%nat; Some 8%nat]);
          (36, [Some 5%nat; Some 8%nat])].
Proof. reflexivity. Qed.

(** 2000-04-01 is a Saturday and its weekly bin ends on Friday the 7th. *)
Example april_first :
  weekday 11048 = 5 /\ week_end FRI 11048 = 11054.
Proof. split; reflexivity. Qed.

(** Weekly bins end on Friday and keep the last value of the week. *)
Example resample_sample :
  index (resample_last FRI Samples.yf_sample)
  = [11019; 11026; 11033; 11040; 11047; 11054]
  /\ at_ (resample_last FRI Samples.yf_sample) 11054 "^VIX" = Some 26%R
  /\ at_ (resample_last FRI Samples.yf_sample) 11026 "^VIX" = None.
Proof. repeat split; reflexivity. Qed.

End CleaningFacts.

(** ** Facts about index construction *)

Module IndexFacts.

Import Frame Index.

Open Scope R_scope.

(** *** Sums and extrema of lists *)

Lemma sum_cons (x : R) (xs : list R) : sum (x :: xs) = x + sum xs.
Proof. reflexivity. Qed.

Lemma sum_affine (a b : R) (xs : list R) :
  sum (map (fun x => a * x + b) xs) = a * sum xs + b * INR (length xs).
Proof.
  induction xs as [|x xs IH].
  - cbn [map length sum fold_right INR]. ring.
  - change (length (x :: xs)) with (S (length xs)). rewrite S_INR.
    cbn [map]. rewrite !sum_cons, IH. ring.
Qed.

Lemma sum_ext (f g : R -> R) (xs : list R) :
  (forall x, f x = g x) -> sum (map f xs) = sum (map g xs).
Proof. intros H. f_equal. now apply map_ext. Qed.


Lemma sum_squares_nonneg (f : R -> R) (xs : list R) :
  0 <= sum (map (fun x => f x * f x) xs).
Proof.
  induction xs as [|x xs IH]; cbn [map].
  - cbn [sum fold_right]. lra.
  - rewrite sum_cons. pose proof (Rle_0_sqr (f x)) as H.
    unfold Rsqr in H. lra.
Qed.

Section Monotone.

Variable f : R -> R.
Hypothesis f_mono : forall a b, a <= b -> f a <= f b.







End Monotone.

Lemma fold_min_le (xs : list R) :
  forall x, fold_left Rmin xs x <= x
            /\ forall y, In y xs -> fold_left Rmin xs x <= y.
Proof.
  induction xs as [|z xs IH]; intros x; simpl.
  - split; [lra|tauto].
  - destruct (IH (Rmin x z)) as [H1 H2]. split.
    + pose proof (Rmin_l x z). lra.
    + intros y [<-|Hy]; auto. pose proof (Rmin_r x z). lra.
Qed.

Lemma fold_max_ge (xs : list R) :
  forall x, x <= fold_left Rmax xs x
            /\ forall y, In y xs -> y <= fold_left Rmax xs x.
Proof.
  induction xs as [|z xs IH]; intros x; simpl.
  - split; [lra|tauto].
  - destruct (IH (Rmax x z)) as [H1 H2]. split.
    + pose proof (Rmax_l x z). lra.
    + intros y [<-|Hy]; auto. pose proof (Rmax_r x z). lra.
Qed.

Lemma data_min_le (xs : list R) (y : R) : In y xs -> data_min xs <= y.
Proof.
  destruct xs as [|x xs]; simpl; [tauto|].
  destruct (fold_min_le xs x) as [H1 H2]. intros [<-|Hy]; auto.
Qed.

Lemma data_max_ge (xs : list R) (y : R) : In y xs -> y <= data_max xs.
Proof.
  destruct xs as [|x xs]; simpl; [tauto|].
  destruct (fold_max_ge xs x) as [H1 H2]. intros [<-|Hy]; auto.
Qed.

(** *** Rescaling to 0-100 *)

Section Rescale.

Variable xs : list R.
Hypothesis range_pos : data_min xs < data_max xs.

Let lo := data_min xs.
Let hi := data_max xs.


Lemma rescale_scale :
  (100 - 0) / handle_zeros_in_scale (hi - lo) = 100 / (hi - lo).
Proof.
  unfold handle_zeros_in_scale, hi, lo.
  destruct (Req_EM_T (data_max xs - data_min xs) 0) as [E|_]; [lra|].
  f_equal. lra.
Qed.

Lemma rescale_formula :
  MinMaxScaler_fit_transform 0 100 xs
  = map (fun x => 100 * (x - lo) / (hi - lo)) xs.
Proof.
  unfold MinMaxScaler_fit_transform. fold lo hi. rewrite rescale_scale.
  apply map_ext. intros x. unfold hi, lo. field. lra.
Qed.

Lemma rescale_mono (a b : R) :
  a <= b -> 100 * (a - lo) / (hi - lo) <= 100 * (b - lo) / (hi - lo).
Proof.
  intros Hab. unfold Rdiv. apply Rmult_le_compat_r.
  - apply Rlt_le, Rinv_0_lt_compat. unfold hi, lo. lra.
  - lra.
Qed.

Lemma rescale_reflect (a b : R) :
  100 * (a - lo) / (hi - lo) <= 100 * (b - lo) / (hi - lo) -> a <= b.
Proof.
  intros H. unfold Rdiv in H.
  apply Rmult_le_reg_r in H;
    [lra | apply Rinv_0_lt_compat; unfold hi, lo; lra].
Qed.

End Rescale.

Lemma nth_map_R (f : R -> R) (xs : list R) (i : nat) :
  (i < length xs)%nat -> nth i (map f xs) 0 = f (nth i xs 0).
Proof.
  intros Hi. rewrite (nth_indep _ 0 (f 0)) by now rewrite length_map.
  apply map_nth.
Qed.


(** In exact arithmetic the rescaling keeps the order of the weeks: one
    week's index is at most another's exactly when its raw factor is,
    and equal raw factors give equal indexes. *)
Lemma rescale_exact_order (xs : list R) (i j : nat) :
  data_min xs < data_max xs ->
  (i < length xs)%nat -> (j < length xs)%nat ->
  let sri := MinMaxScaler_fit_transform 0 100 xs in
  (nth i sri 0 <= nth j sri 0 <-> nth i xs 0 <= nth j xs 0)
  /\ (nth i xs 0 = nth j xs 0 -> nth i sri 0 = nth j sri 0).
Proof.
  intros Hr Hi Hj sri. unfold sri. rewrite (@rescale_formula xs Hr).
  rewrite !nth_map_R by assumption.
  split; [split|].
  - apply (@rescale_reflect xs Hr).
  - apply (@rescale_mono xs Hr).
  - now intros ->.
Qed.

(** *** Standardization *)

Lemma var_nonneg (xs : list R) : 0 <= var xs.
Proof.
  unfold var, mean at 1.
  pose proof (sum_squares_nonneg (fun x => x - mean xs) xs) as Hs.
  rewrite length_map.
  destruct xs as [|x xs].
  - unfold Rdiv. cbn [map sum fold_right]. lra.
  - apply Rmult_le_pos; auto.
    apply Rlt_le, Rinv_0_lt_compat, lt_0_INR. simpl. lia.
Qed.

Lemma var_nil : var [] = 0.
Proof. unfold var, mean. cbn [map sum fold_right]. unfold Rdiv. lra. Qed.

Section Column.

Variable xs : list R.
Hypothesis var_nonzero : var xs <> 0.

Lemma column_nonempty : (0 < length xs)%nat.
Proof.
  destruct xs; [|simpl; lia]. elim var_nonzero. apply var_nil.
Qed.

Lemma std_pos : 0 < std xs.
Proof.
  unfold std. apply sqrt_lt_R0. pose proof (var_nonneg xs). lra.
Qed.


Lemma scale_is_std : handle_zeros_in_scale (std xs) = std xs.
Proof.
  unfold handle_zeros_in_scale. pose proof std_pos.
  destruct (Req_EM_T (std xs) 0); lra.
Qed.

Lemma standardize_formula :
  standardize xs = map (fun x => (x - mean xs) / std xs) xs.
Proof. unfold standardize. now rewrite scale_is_std. Qed.

Lemma standardize_mean : mean (standardize xs) = 0.
Proof.
  rewrite standardize_formula. unfold mean at 1. rewrite length_map.
  pose proof std_pos as Hs. pose proof column_nonempty as Hn.
  apply lt_0_INR in Hn.
  rewrite (sum_ext (fun x => (x - mean xs) / std xs)
                   (fun x => / std xs * x + - mean xs / std xs))
    by (intros x; field; lra).
  rewrite sum_affine. unfold mean. field. lra.
Qed.



End Column.


(** *** Constant columns *)








(** *** Column selection *)

Lemma has_column_In (cols : list string) (n : string) :
  has_column cols n = true <-> In n cols.
Proof.
  unfold has_column. rewrite existsb_exists. split.
  - intros [c [Hc He]]. apply String.eqb_eq in He. now subst.
  - intros H. exists n. split; auto. apply String.eqb_refl.
Qed.

Lemma missing_columns_In (names cols : list string) (n : string) :
  In n (missing_columns names cols) <-> In n names /\ ~ In n cols.
Proof.
  unfold missing_columns. rewrite filter_In, negb_true_iff.
  pose proof (has_column_In cols n) as Hc.
  destruct (has_column cols n); split; intros [H1 H2]; split; auto.
  - discriminate.
  - elim H2. now apply Hc.
  - intros H. apply Hc in H. discriminate.
Qed.

Section Selection.

Variable PCA_fit_transform : matrix -> PCAResult.

(** When a selected column is absent, the construction stops with a
    [KeyError] that lists exactly the absent names, and nothing is
    produced. *)
Lemma build_sri_missing (df : DataFrame R) (n : string) :
  In n risk_factor_names -> ~ In n (columns df) ->
  exists missing,
    build_sri PCA_fit_transform df = inl (KeyError missing)
    /\ In n missing
    /\ forall m, In m missing <->
                 In m risk_factor_names /\ ~ In m (columns df).
Proof.
  intros Hn Ha.
  exists (missing_columns risk_factor_names (columns df)).
  assert (Hin : In n (missing_columns risk_factor_names (columns df)))
    by now apply missing_columns_In.
  split; [|split].
  - unfold build_sri, getitem.
    destruct (missing_columns risk_factor_names (columns df));
      [destruct Hin|reflexivity].
  - exact Hin.
  - intros m. apply missing_columns_In.
Qed.

Lemma cleaned_columns (yf_data : DataFrame R)
      (get_series : string -> Series R) :
  columns (Cleaning.cleaned_market_data yf_data get_series)
  = columns yf_data ++ map fst Cleaning.fred_tickers.
Proof.
  unfold Cleaning.cleaned_market_data, Cleaning.clean_weekly,
    Cleaning.consolidate.
  cbn [Cleaning.dropna Cleaning.ffill columns Cleaning.concat_outer].
  unfold Cleaning.resample_last.
  destruct (rows (Cleaning.concat_outer yf_data
                    (Cleaning.fred_frame get_series)));
    reflexivity.
Qed.

(** Stage 1 names its market columns by ticker, caret included ([^VIX],
    [^MOVE]); stage 2 asks for [VIX] and [MOVE]. *)
Lemma stage2_on_cleaned_frame
      (yf_data : DataFrame R) (get_series : string -> Series R) :
  (forall c, In c (columns yf_data) -> In c Cleaning.yf_tickers) ->
  build_sri PCA_fit_transform
            (Cleaning.cleaned_market_data yf_data get_series)
  = inl (KeyError ["VIX"; "MOVE"]%string).
Proof.
  intros Hyf. unfold build_sri, getitem. rewrite cleaned_columns.
  assert (Hno : forall n, ~ In n Cleaning.yf_tickers ->
                ~ In n (map fst Cleaning.fred_tickers) ->
                has_column (columns yf_data
                            ++ map fst Cleaning.fred_tickers) n = false).
  { intros n H1 H2.
    destruct (has_column _ n) eqn:E; auto.
    apply has_column_In, in_app_or in E as [E|E]; [|contradiction].
    elim H1. now apply Hyf. }
  unfold missing_columns, risk_factor_names. cbn [filter].
  rewrite (Hno "VIX"%string), (Hno "MOVE"%string);
    try (cbn; intuition discriminate).
  assert (Hy : has_column (columns yf_data
                           ++ map fst Cleaning.fred_tickers)
                          "BAMLC0A0CMEY" = true).
  { apply has_column_In, in_or_app. right. cbn. tauto. }
  rewrite Hy. reflexivity.
Qed.

(** C4.  The column names stage 2 selects are not those of the frame
    stage 1 writes: on every such frame, whatever the data, the
    construction stops with the [KeyError] for [VIX] and [MOVE] and
    produces nothing. *)
Theorem stage2_rejects_stage1_artifact
        (yf_data : DataFrame R) (get_series : string -> Series R)
        (artifact : DataFrame R) :
  (forall c, In c (columns yf_data) -> In c Cleaning.yf_tickers) ->
  Cleaning.run_stage1 yf_data get_series = Some artifact ->
  build_sri PCA_fit_transform artifact
  = inl (KeyError ["VIX"; "MOVE"]%string).
Proof.
  intros Hyf. unfold Cleaning.run_stage1.
  destruct (Cleaning.empty yf_data); [discriminate|].
  destruct (rows (Cleaning.fred_frame get_series)); [discriminate|].
  intros [= <-]. now apply stage2_on_cleaned_frame.
Qed.

End Selection.

(** *** The statements above on the sample inputs *)

Lemma factor_sample_extrema :
  data_min Samples.factor_sample = 1 /\ data_max Samples.factor_sample = 3.
Proof.
  unfold data_min, data_max, Samples.factor_sample. cbn [fold_left].
  split.
  - rewrite (Rmin_left 1 3) by lra. apply Rmin_left. lra.
  - rewrite (Rmax_right 1 3) by lra. apply Rmax_left. lra.
Qed.

Lemma factor_sample_range :
  data_min Samples.factor_sample < data_max Samples.factor_sample.
Proof. destruct factor_sample_extrema as [-> ->]. lra. Qed.

(** The index of the sample factor: 0, 100 and 50. *)
Example rescale_factor_sample :
  MinMaxScaler_fit_transform 0 100 Samples.factor_sample = [0; 100; 50].
Proof.
  rewrite (@rescale_formula _ factor_sample_range).
  destruct factor_sample_extrema as [-> ->].
  unfold Samples.factor_sample. cbn [map].
  repeat (f_equal; try lra).
Qed.






Lemma stage2_rejects_stage1_artifact_witness :
  let artifact := Cleaning.cleaned_market_data Samples.yf_sample
                                               Samples.fred_sample in
  (forall c, In c (columns Samples.yf_sample) -> In c Cleaning.yf_tickers)
  /\ Cleaning.run_stage1 Samples.yf_sample Samples.fred_sample
     = Some artifact
  /\ build_sri Samples.sri_pca artifact
     = inl (KeyError ["VIX"; "MOVE"]%string).
Proof.
  intros artifact.
  assert (Hyf : forall c, In c (columns Samples.yf_sample) ->
                          In c Cleaning.yf_tickers)
    by (intros c Hc; exact Hc).
  assert (Hrun : Cleaning.run_stage1 Samples.yf_sample Samples.fred_sample
                 = Some artifact) by reflexivity.
  split; [exact Hyf|]. split; [exact Hrun|].
  exact (@stage2_rejects_stage1_artifact Samples.sri_pca Samples.yf_sample
           Samples.fred_sample artifact Hyf Hrun).
Defined.

(** *** The construction cell and the sign of the component *)

Lemma getitem_columns (df rf : DataFrame R) (names : list string) :
  getitem df names = inr rf -> columns rf = names.
Proof.
  unfold getitem. destruct (missing_columns names (columns df));
    [|discriminate]. now intros [= <-].
Qed.

(** The cell hands on what the decomposition returns: the raw index is
    the transformed column itself and the loadings are [components_[0]]
    themselves.  No step of the cell changes their sign. *)
Lemma build_sri_keeps_component (pca : matrix -> PCAResult)
      (df : DataFrame R) (nb : Notebook) :
  build_sri pca df = inr nb ->
  exists rf X Z,
    getitem df risk_factor_names = inr rf
    /\ to_numpy rf = inr X
    /\ StandardScaler_fit_transform X = inr Z
    /\ sri_raw nb = transformed (pca Z)
    /\ loadings nb = combine risk_factor_names (components_0 (pca Z))
    /\ sri_scaled nb
       = MinMaxScaler_fit_transform 0 100 (transformed (pca Z)).
Proof.
  unfold build_sri, bind.
  destruct (getitem df risk_factor_names) as [e|rf] eqn:Hg; [discriminate|].
  destruct (to_numpy rf) as [e|X] eqn:Hx; [discriminate|].
  destruct (StandardScaler_fit_transform X) as [e|Z] eqn:Hz; [discriminate|].
  destruct (assign_array _ _ _) as [e|df']; [discriminate|].
  intros [= <-]. exists rf, X, Z. simpl.
  rewrite (getitem_columns _ _ Hg). repeat split; auto.
Qed.

Lemma combine_columns (A : Type) (f : A -> R -> cell R) (l : list A) :
  forall vs g,
    length vs = length l ->
    (forall a v, In a l -> f a v = g v) ->
    map (fun av : A * R => f (fst av) (snd av)) (combine l vs) = map g vs.
Proof.
  induction l as [|a l IH]; intros [|v vs] g Hl Hf; simpl in *;
    try discriminate; auto.
  rewrite (Hf a v) by now left. f_equal. apply IH; auto.
Qed.

(** The frame the cell leaves: the input columns followed by [SRI], whose
    values are the rescaled index, week by week. *)
Lemma build_sri_column (pca : matrix -> PCAResult)
      (df : DataFrame R) (nb : Notebook) :
  build_sri pca df = inr nb ->
  rectangular df ->
  ~ In "SRI"%string (columns df) ->
  columns (df_out nb) = columns df ++ ["SRI"%string]
  /\ column (length (columns df)) (df_out nb) = map Some (sri_scaled nb).
Proof.
  unfold build_sri, bind.
  destruct (getitem df risk_factor_names) as [e|rf]; [discriminate|].
  destruct (to_numpy rf) as [e|X]; [discriminate|].
  destruct (StandardScaler_fit_transform X) as [e|Z]; [discriminate|].
  unfold assign_array.
  destruct (Nat.eqb_spec
              (length (MinMaxScaler_fit_transform 0 100
                         (transformed (pca Z))))
              (length (rows df))) as [Hl|]; [|discriminate].
  intros [= <-] Hrect Hno. cbn [df_out sri_scaled].
  assert (Hi : index_of "SRI" (columns df) = None).
  { destruct (CleaningFacts.index_of_In "SRI" (columns df)) as [_ H].
    destruct (index_of "SRI" (columns df)); auto.
    elim Hno. apply H. discriminate. }
  rewrite Hi. split; [reflexivity|].
  unfold column. cbn [rows]. rewrite map_map. cbn [fst snd].
  apply (@combine_columns (row R)
           (fun r v => nth (length (columns df)) (snd r ++ [Some v]) None));
    auto.
  intros r v Hr. unfold rectangular in Hrect.
  rewrite Forall_forall in Hrect. rewrite <- (Hrect r Hr).
  apply nth_middle.
Qed.

Lemma center_standardized (X : matrix) :
  Forall (fun xs => var xs <> 0) X ->
  center (map standardize X) = map standardize X.
Proof.
  induction 1 as [|xs X Hxs _ IH]; [reflexivity|].
  unfold center in *. cbn [map]. rewrite IH. f_equal.
  rewrite (@standardize_mean xs Hxs).
  rewrite <- (map_id (standardize xs)) at 2.
  apply map_ext. intros x. ring.
Qed.

Lemma standardize_by (xs : list R) (m v : R) :
  mean xs = m -> var xs = v -> 0 < v ->
  standardize xs = map (fun x => (x - m) / sqrt v) xs.
Proof.
  intros Hm Hv Hp.
  assert (Hnz : var xs <> 0) by lra.
  rewrite (@standardize_formula xs Hnz). unfold std. now rewrite Hm, Hv.
Qed.

(** *** A sample on which the first component loads negatively on VIX *)

Section SampleComponent.

Import Samples.

Ltac list_arith :=
  unfold mean; cbn [map sum fold_right length INR]; lra.

Lemma vix_mean : mean [19; 20; 23; 18] = 20.
Proof. list_arith. Qed.

Lemma vix_var : var [19; 20; 23; 18] = 7 / 2.
Proof. unfold var. rewrite vix_mean. list_arith. Qed.

Lemma move_mean : mean [103; 98; 99; 100] = 100.
Proof. list_arith. Qed.

Lemma move_var : var [103; 98; 99; 100] = 7 / 2.
Proof. unfold var. rewrite move_mean. list_arith. Qed.

Lemma baml_mean : mean [8; 3; 4; 5] = 5.
Proof. list_arith. Qed.

Lemma baml_var : var [8; 3; 4; 5] = 7 / 2.
Proof. unfold var. rewrite baml_mean. list_arith. Qed.

(** The first three steps of the cell on the sample. *)
Lemma sri_getitem : getitem sri_input risk_factor_names = inr sri_input.
Proof. reflexivity. Qed.

Lemma sri_to_numpy : to_numpy sri_input = inr sri_matrix.
Proof. reflexivity. Qed.

Lemma sri_scaler :
  StandardScaler_fit_transform sri_matrix
  = inr (map standardize sri_matrix).
Proof. reflexivity. Qed.

Lemma sri_vars : Forall (fun xs => var xs <> 0) sri_matrix.
Proof.
  unfold sri_matrix. repeat constructor.
  - rewrite vix_var; lra.
  - rewrite move_var; lra.
  - rewrite baml_var; lra.
Qed.

Lemma sri_standardize : map standardize sri_matrix = sri_standardized.
Proof.
  unfold sri_matrix, sri_standardized, sri_sigma. cbn [map].
  rewrite (@standardize_by _ _ _ vix_mean vix_var) by lra.
  rewrite (@standardize_by _ _ _ move_mean move_var) by lra.
  rewrite (@standardize_by _ _ _ baml_mean baml_var) by lra.
  reflexivity.
Qed.

Lemma center_sample : center sri_standardized = sri_standardized.
Proof.
  rewrite <- sri_standardize. apply center_standardized, sri_vars.
Qed.

Lemma sigma_inv_sqr : / sri_sigma * / sri_sigma = 2 / 7.
Proof.
  unfold sri_sigma. rewrite <- Rinv_mult. rewrite sqrt_sqrt by lra. lra.
Qed.

Lemma sigma_pos : 0 < sri_sigma.
Proof. unfold sri_sigma. apply sqrt_lt_R0. lra. Qed.

(** Scores of the four weeks along an axis [x; y; z]. *)
Lemma project_sample (x y z : R) :
  project sri_standardized [x; y; z]
  = [(- x + 3 * y + 3 * z) / sri_sigma; (- 2 * y - 2 * z) / sri_sigma;
     (3 * x - y - z) / sri_sigma; (- 2 * x) / sri_sigma].
Proof.
  unfold project, sri_standardized, project_row, dot.
  cbn [n_samples hd map length seq nth combine sum fold_right fst snd].
  pose proof sigma_pos.
  repeat (f_equal; [field; lra|]). f_equal. field. lra.
Qed.

(** Their sum of squares: four times the quadratic form of the
    correlation matrix. *)
Lemma quadratic_sample (x y z : R) :
  sumsq (project sri_standardized [x; y; z])
  = 4 * (x * x + y * y + z * z) - 24 / 7 * (x * y + x * z) + 8 * y * z.
Proof.
  rewrite project_sample. unfold sumsq, dot.
  cbn [map combine sum fold_right fst snd]. unfold Rdiv.
  set (u := / sri_sigma).
  transitivity ((u * u) * (14 * (x * x + y * y + z * z)
                           - 12 * (x * y + x * z) + 28 * y * z)).
  - ring.
  - unfold u. rewrite sigma_inv_sqr. field.
Qed.

Lemma quadratic_gap (x y z : R) :
  64 / 7 * (x * x + y * y + z * z)
  - sumsq (project sri_standardized [x; y; z])
  = 32 / 7 * ((y - z) * (y - z))
    + 4 / 7 * ((3 * x + y + z) * (3 * x + y + z)).
Proof. rewrite quadratic_sample. field. Qed.

Lemma r22_sqr : sqrt 22 * sqrt 22 = 22.
Proof. apply sqrt_sqrt. lra. Qed.

Lemma r22_pos : 0 < sqrt 22.
Proof. apply sqrt_lt_R0. lra. Qed.

Lemma r22_inv_sqr : / sqrt 22 * / sqrt 22 = / 22.
Proof. rewrite <- Rinv_mult. now rewrite r22_sqr. Qed.

Lemma axis_unit : dot sri_axis sri_axis = 1.
Proof.
  unfold sri_axis, dot. cbn [map combine sum fold_right fst snd].
  unfold Rdiv. set (u := / sqrt 22).
  transitivity (22 * (u * u)); [ring|].
  unfold u. rewrite r22_inv_sqr. field.
Qed.

Lemma axis_value : sumsq (project sri_standardized sri_axis) = 64 / 7.
Proof.
  unfold sri_axis. rewrite quadratic_sample.
  unfold Rdiv. set (u := / sqrt 22).
  transitivity (1408 / 7 * (u * u)); [field|].
  unfold u. rewrite r22_inv_sqr. field.
Qed.

Lemma dot3 (x y z : R) :
  dot [x; y; z] [x; y; z] = x * x + y * y + z * z.
Proof. unfold dot. cbn [map combine sum fold_right fst snd]. ring. Qed.

Lemma length3 (A : Type) (v : list A) :
  length v = 3%nat -> exists x y z, v = [x; y; z].
Proof.
  destruct v as [|x [|y [|z [|t v]]]]; try discriminate.
  intros _. now exists x, y, z.
Qed.

(** [sri_axis] is a first principal axis of the sample. *)
Lemma axis_is_first : first_axis sri_standardized sri_axis.
Proof.
  split; [reflexivity|]. split; [exact axis_unit|].
  intros w Hl Hu. rewrite center_sample, axis_value.
  apply length3 in Hl as [x [y [z ->]]]. rewrite dot3 in Hu.
  pose proof (quadratic_gap x y z) as Hg. rewrite Hu in Hg.
  pose proof (Rle_0_sqr (y - z)) as H1.
  pose proof (Rle_0_sqr (3 * x + y + z)) as H2.
  unfold Rsqr in *. lra.
Qed.

(** Every first principal axis of the sample is on the line of
    [(-2, 3, 3)]. *)
Lemma first_axis_direction (v : list R) :
  first_axis sri_standardized v ->
  exists x y, v = [x; y; y] /\ 3 * x + 2 * y = 0 /\ y <> 0.
Proof.
  intros [Hl [Hu Hmax]].
  specialize (Hmax sri_axis eq_refl axis_unit).
  rewrite center_sample, axis_value in Hmax.
  apply length3 in Hl as [x [y [z ->]]]. rewrite dot3 in Hu.
  pose proof (quadratic_gap x y z) as Hg. rewrite Hu in Hg.
  pose proof (Rle_0_sqr (y - z)) as H1.
  pose proof (Rle_0_sqr (3 * x + y + z)) as H2.
  unfold Rsqr in *.
  assert (E1 : (y - z) * (y - z) = 0) by lra.
  assert (E2 : (3 * x + y + z) * (3 * x + y + z) = 0) by lra.
  apply Rmult_integral in E1. apply Rmult_integral in E2.
  assert (z = y) by lra. subst z.
  exists x, y. split; [reflexivity|]. split; [lra|].
  intros ->. assert (x = 0) by lra. subst x. lra.
Qed.

Lemma Rabs_over (a s : R) : 0 < s -> Rabs (a / s) = Rabs a / s.
Proof.
  intros Hs. unfold Rdiv. rewrite Rabs_mult.
  rewrite (Rabs_pos_eq (/ s)); auto.
  apply Rlt_le, Rinv_0_lt_compat, Hs.
Qed.

Lemma over_lt (a b s : R) : 0 < s -> a / s < b / s -> a < b.
Proof.
  intros Hs H. unfold Rdiv in H.
  apply Rmult_lt_reg_r in H; auto. now apply Rinv_0_lt_compat.
Qed.

Lemma over_pos (a s : R) : 0 < s -> 0 < a / s -> 0 < a.
Proof.
  intros Hs H. apply (@over_lt 0 a s Hs). unfold Rdiv at 1.
  now rewrite Rmult_0_l.
Qed.

(** The sign convention on the loadings puts the two equal loadings on
    the positive side. *)
Lemma loadings_sign (x y : R) :
  3 * x + 2 * y = 0 -> largest_is_positive [x; y; y] -> 0 < y.
Proof.
  intros E [k [Hk [Hall [Hfirst Hpos]]]].
  destruct k as [|[|[|k]]]; simpl in Hpos; auto; [|simpl in Hk; lia].
  specialize (Hall 1%nat). simpl in Hall.
  assert (Hy : Rabs y <= Rabs x) by (apply Hall; lia).
  rewrite (Rabs_pos_eq x) in Hy by lra.
  assert (y < 0) by lra. rewrite (Rabs_left y) in Hy by assumption. lra.
Qed.

(** So does the sign convention on the scores. *)
Lemma scores_sign (x y : R) :
  3 * x + 2 * y = 0 -> y <> 0 ->
  largest_is_positive (project sri_standardized [x; y; y]) -> 0 < y.
Proof.
  intros E Hy. rewrite project_sample.
  intros [k [Hk [Hall [Hfirst Hpos]]]].
  pose proof sigma_pos as Hs.
  destruct k as [|k].
  - simpl in Hpos. apply over_pos in Hpos; auto. lra.
  - exfalso. specialize (Hfirst 0%nat). simpl in Hfirst.
    assert (H0 : (0 < S k)%nat) by lia. specialize (Hfirst H0).
    destruct k as [|[|[|k]]]; [| | |simpl in Hk; lia];
      rewrite !Rabs_over in Hfirst by assumption;
      apply over_lt in Hfirst; auto;
      unfold Rabs in Hfirst;
      repeat destruct (Rcase_abs _) in Hfirst; lra.
Qed.

(** Whatever the decomposition returns on the sample, under either
    sign convention, its loading on VIX is negative. *)
Lemma component_sign_sample (r : PCAResult) :
  is_first_component sri_standardized r ->
  exists x y,
    components_0 r = [x; y; y] /\ x < 0 /\ 0 < y
    /\ transformed r = project sri_standardized [x; y; y].
Proof.
  intros [Hax [Htr Hsign]].
  destruct (@first_axis_direction _ Hax) as [x [y [Hv [E Hy]]]].
  rewrite Hv, center_sample in Htr. rewrite Hv, Htr in Hsign.
  assert (0 < y).
  { destruct Hsign as [H|H].
    - now apply loadings_sign with (x := x).
    - now apply scores_sign with (x := x). }
  exists x, y. repeat split; auto. lra.
Qed.

Lemma build_sri_runs (pca : matrix -> PCAResult) (df rf : DataFrame R)
      (X Z : matrix) :
  getitem df risk_factor_names = inr rf ->
  to_numpy rf = inr X ->
  StandardScaler_fit_transform X = inr Z ->
  length (transformed (pca Z)) = length (rows df) ->
  exists df',
    build_sri pca df
    = inr (mkNotebook df' (transformed (pca Z))
             (combine (columns rf) (components_0 (pca Z)))
             (MinMaxScaler_fit_transform 0 100 (transformed (pca Z)))).
Proof.
  intros Hg Hx Hz Hl. unfold build_sri. rewrite Hg. cbn [bind].
  rewrite Hx. cbn [bind]. rewrite Hz. cbn [bind].
  unfold assign_array, MinMaxScaler_fit_transform.
  rewrite length_map, Hl, Nat.eqb_refl. cbn [bind].
  eexists. reflexivity.
Qed.

Lemma largest_axis : largest_is_positive sri_axis.
Proof.
  pose proof r22_pos as Hr.
  assert (Hu : 0 < / sqrt 22) by now apply Rinv_0_lt_compat.
  assert (H2 : Rabs (-2 / sqrt 22) = 2 / sqrt 22).
  { rewrite Rabs_over by assumption. f_equal. rewrite Rabs_left; lra. }
  assert (H3 : Rabs (3 / sqrt 22) = 3 / sqrt 22).
  { rewrite Rabs_over by assumption. f_equal. rewrite Rabs_pos_eq; lra. }
  exists 1%nat. unfold sri_axis. repeat split.
  - simpl. lia.
  - intros j Hj. destruct j as [|[|[|j]]]; simpl in *; try lia;
      rewrite ?H2, ?H3; unfold Rdiv; nra.
  - intros j Hj. destruct j as [|j]; [|lia]. simpl.
    rewrite H2, H3. unfold Rdiv. nra.
  - simpl. unfold Rdiv. nra.
Qed.

Lemma sri_pca_is_first :
  is_first_component (map standardize sri_matrix)
                     (sri_pca (map standardize sri_matrix)).
Proof.
  rewrite sri_standardize. unfold sri_pca.
  split; [exact axis_is_first|]. split; [reflexivity|].
  left. exact largest_axis.
Qed.

(** The scores move against VIX. *)
Lemma vix_against_scores (x y : R) :
  x < 0 -> 0 < y ->
  dot (map (fun v => v - mean [19; 20; 23; 18]) [19; 20; 23; 18])
      (project sri_standardized [x; y; y]) < 0.
Proof.
  intros Hx Hy. rewrite vix_mean, project_sample. unfold dot.
  cbn [map combine sum fold_right fst snd].
  pose proof sigma_pos as Hs.
  assert (Hu : 0 < / sri_sigma) by now apply Rinv_0_lt_compat.
  unfold Rdiv. set (u := / sri_sigma) in *.
  replace ((19 - 20) * ((- x + 3 * y + 3 * y) * u)
           + ((20 - 20) * ((-2 * y - 2 * y) * u)
              + ((23 - 20) * ((3 * x - y - y) * u)
                 + ((18 - 20) * (-2 * x * u) + 0))))
    with ((14 * x - 12 * y) * u) by ring.
  nra.
Qed.

(** C1, on the code.  On the sample, where VIX falls when the two other
    indicators rise, the cell runs to the end and leaves the component
    as the decomposition returned it: the loading on VIX is negative,
    nothing is negated, and the raw index varies against VIX. *)
Theorem construction_keeps_negative_loading
        (pca : matrix -> PCAResult) :
  is_first_component (map standardize sri_matrix)
                     (pca (map standardize sri_matrix)) ->
  exists nb x y,
    build_sri pca sri_input = inr nb
    /\ components_0 (pca (map standardize sri_matrix)) = [x; y; y]
    /\ sri_raw nb = transformed (pca (map standardize sri_matrix))
    /\ loadings nb
       = [("VIX"%string, x); ("MOVE"%string, y);
          ("BAMLC0A0CMEY"%string, y)]
    /\ x < 0
    /\ dot (map (fun v => v - mean [19; 20; 23; 18]) [19; 20; 23; 18])
           (sri_raw nb) < 0.
Proof.
  intros Hpc.
  set (Z := map standardize sri_matrix) in *.
  assert (HZ : Z = sri_standardized) by exact sri_standardize.
  pose proof Hpc as Hpc'. rewrite HZ in Hpc' at 1.
  destruct (@component_sign_sample _ Hpc') as [x [y [Hv [Hx [Hy Htr]]]]].
  destruct (@build_sri_runs pca sri_input sri_input sri_matrix Z
              sri_getitem sri_to_numpy sri_scaler) as [df' Hrun].
  { rewrite Htr, project_sample. reflexivity. }
  eexists. exists x, y. split; [exact Hrun|]. cbn [sri_raw loadings].
  repeat split; auto.
  - rewrite Hv. reflexivity.
  - rewrite Htr. now apply vix_against_scores.
Qed.

End SampleComponent.

Lemma construction_keeps_negative_loading_witness :
  is_first_component
    (map standardize Samples.sri_matrix)
    (Samples.sri_pca (map standardize Samples.sri_matrix))
  /\ exists nb x y,
       build_sri Samples.sri_pca Samples.sri_input = inr nb
       /\ components_0 (Samples.sri_pca
                          (map standardize Samples.sri_matrix))
          = [x; y; y]
       /\ sri_raw nb
          = transformed (Samples.sri_pca
                           (map standardize Samples.sri_matrix))
       /\ loadings nb
          = [("VIX"%string, x); ("MOVE"%string, y);
             ("BAMLC0A0CMEY"%string, y)]
       /\ x < 0
       /\ dot (map (fun v => v - mean [19; 20; 23; 18]) [19; 20; 23; 18])
              (sri_raw nb) < 0.
Proof.
  split.
  - exact sri_pca_is_first.
  - exact (@construction_keeps_negative_loading
             Samples.sri_pca sri_pca_is_first).
Defined.

End IndexFacts.

(** ** More facts about the cleaning stage *)

Module CleaningLaws.

Import Frame Cleaning CleaningFacts.

Open Scope Z_scope.

Section Laws.

Variable V : Type.

Local Abbreviation cell := (cell V).
Local Abbreviation row := (row V).
Local Abbreviation DataFrame := (DataFrame V).
Local Abbreviation Series := (Series V).

(** *** Outer join *)

Lemma insert_date_sorted (t : Z) (l : list Z) :
  StronglySorted Z.lt l -> StronglySorted Z.lt (insert_date t l).
Proof.
  induction 1 as [|u l Hl IH Hu]; simpl.
  - repeat constructor.
  - destruct (Z.ltb_spec t u).
    + constructor; [now constructor|]. constructor; auto.
      rewrite Forall_forall in *. intros x Hx. specialize (Hu x Hx). lia.
    + destruct (Z.eqb_spec t u); [now constructor|].
      constructor; auto. rewrite Forall_forall in *. intros x Hx.
      apply insert_date_In in Hx as [->|Hx]; [lia|auto].
Qed.

Lemma union_index_sorted (a b : list Z) :
  StronglySorted Z.lt (union_index a b).
Proof.
  unfold union_index. induction (a ++ b) as [|x l IH]; simpl.
  - constructor.
  - now apply insert_date_sorted.
Qed.

Lemma concat_outer_rectangular (a b : DataFrame) :
  rectangular a -> rectangular b -> rectangular (concat_outer a b).
Proof.
  intros Ha Hb. unfold rectangular, concat_outer. cbn [rows columns].
  apply Forall_forall. intros r Hr.
  apply in_map_iff in Hr as [t [<- _]]. cbn [snd].
  rewrite !length_app, !reindex_row_length; auto.
Qed.

(** X1.  [pd.concat([a, b], axis=1, join="outer")]: the columns of [a]
    followed by those of [b], one row for each date of either frame, in
    strictly increasing date order, and in each column the cell of the
    frame that owns it, NaN where that frame has no row. *)
Theorem concat_outer_is_outer_join (a b : DataFrame) :
  rectangular a -> rectangular b ->
  columns (concat_outer a b) = columns a ++ columns b
  /\ StronglySorted Z.lt (index (concat_outer a b))
  /\ (forall t, In t (index (concat_outer a b))
                <-> In t (index a) \/ In t (index b))
  /\ rectangular (concat_outer a b)
  /\ (forall t k, In k (columns a) ->
        at_ (concat_outer a b) t k = at_ a t k)
  /\ (forall t k, ~ In k (columns a) ->
        at_ (concat_outer a b) t k = at_ b t k).
Proof.
  intros Ha Hb. split; [reflexivity|].
  split; [rewrite concat_index; apply union_index_sorted|].
  split; [intros t; rewrite concat_index; apply union_index_In|].
  split; [now apply concat_outer_rectangular|].
  split; intros t k Hk; rewrite (@concat_outer_cells V a b t k Ha);
    destruct (in_dec string_dec k (columns a)); tauto.
Qed.

(** *** The FRED loop *)

Lemma fred_frame_rows (get_series : string -> Series) :
  get_series "T10Y2Y"%string <> [] ->
  rows (fred_frame get_series)
  = map (fun t => (t, [series_at (get_series "T10Y2Y"%string) t;
                       series_at (get_series "BAMLC0A0CMEY"%string) t;
                       series_at (get_series "USRECP"%string) t]))
        (map fst (get_series "T10Y2Y"%string)).
Proof.
  intros Hne. unfold fred_frame, fred_tickers. cbn [fold_left fst snd].
  destruct (get_series "T10Y2Y"%string) as [|p s] eqn:E; [congruence|].
  unfold setitem, empty_frame.
  cbn [rows columns map index_of String.eqb Ascii.eqb Bool.eqb option_map
       length repeat app fst snd].
  f_equal. rewrite !map_map. apply map_ext. intros q. reflexivity.
Qed.

(** X2.  The FRED frame is aligned on its first series: it has the three
    keys as columns and the dates of [T10Y2Y] as index, and a cell holds
    the observation of its series at that date.  What a series observes
    at any other date is not in the frame. *)
Theorem fred_frame_aligned (get_series : string -> Series)
        (t : Z) (key : string) :
  get_series "T10Y2Y"%string <> [] ->
  In key (map fst fred_tickers) ->
  columns (fred_frame get_series) = map fst fred_tickers
  /\ index (fred_frame get_series)
     = map fst (get_series "T10Y2Y"%string)
  /\ at_ (fred_frame get_series) t key
     = if in_dec Z.eq_dec t (map fst (get_series "T10Y2Y"%string))
       then series_at (get_series key) t
       else None.
Proof.
  intros Hne Hkey.
  assert (Hc : columns (fred_frame get_series) = map fst fred_tickers)
    by reflexivity.
  split; [exact Hc|]. split; [now apply fred_frame_index|].
  unfold at_. rewrite Hc, (@fred_frame_rows get_series Hne), lookup_row_built.
  destruct (in_dec Z.eq_dec t (map fst (get_series "T10Y2Y"%string)));
    [|reflexivity].
  cbn in Hkey. destruct Hkey as [<-|[<-|[<-|[]]]]; reflexivity.
Qed.

(** X3.  Empty series in the FRED loop: the frame always has the three
    columns, and its index is that of the first series that is not
    empty; with three empty series it has no row. *)
Theorem fred_frame_first_nonempty (get_series : string -> Series) :
  columns (fred_frame get_series) = map fst fred_tickers
  /\ index (fred_frame get_series)
     = map fst
         match get_series "T10Y2Y"%string with
         | [] => match get_series "BAMLC0A0CMEY"%string with
                 | [] => get_series "USRECP"%string
                 | s => s
                 end
         | s => s
         end.
Proof.
  split; [reflexivity|].
  destruct (get_series "T10Y2Y"%string) as [|p1 s1] eqn:E1.
  - unfold fred_frame, fred_tickers. cbn [fold_left fst snd]. rewrite E1.
    destruct (get_series "BAMLC0A0CMEY"%string) as [|p2 s2] eqn:E2.
    + apply setitem_index_empty. reflexivity.
    + rewrite setitem_index_keep.
      * apply setitem_index_empty. reflexivity.
      * apply index_nonempty. rewrite setitem_index_empty by reflexivity.
        discriminate.
  - rewrite <- E1. apply fred_frame_index. congruence.
Qed.

(** *** Weekly bins *)

(** X4.  The weekly bin labelled by the anchor day [l] holds exactly the
    seven days up to and including [l]. *)
Theorem week_end_bin (anchor l d : Z) :
  0 <= anchor < 7 -> weekday l = anchor ->
  (week_end anchor d = l <-> l - 7 < d <= l).
Proof.
  unfold week_end, weekday. intros Ha Hl.
  split; intros H; Z.div_mod_to_equations; lia.
Qed.

Lemma week_end_mono (anchor d1 d2 : Z) :
  0 <= anchor < 7 -> d1 <= d2 -> week_end anchor d1 <= week_end anchor d2.
Proof.
  unfold week_end, weekday. intros Ha Hd. Z.div_mod_to_equations. lia.
Qed.

Lemma fst_last (rs : list row) (r0 : row) :
  fst (last rs r0) = last (map fst rs) (fst r0).
Proof.
  induction rs as [|r rs IH]; simpl; auto.
  destruct rs; simpl in *; auto.
Qed.

Lemma sorted_le_last (l : list Z) (d : Z) :
  StronglySorted Z.le l -> forall t, In t l -> t <= last l d.
Proof.
  induction 1 as [|u l Hl IH Hu]; intros t Ht; [destruct Ht|].
  destruct l as [|w l]; simpl in *.
  - destruct Ht as [<-|[]]. lia.
  - destruct Ht as [<-|Ht].
    + rewrite Forall_forall in Hu.
      assert (u <= w) by (apply Hu; now left).
      specialize (IH w (or_introl eq_refl)). lia.
    + now apply IH.
Qed.

(** Weekly resampling loses no date: the week of every row is a row of
    the resampled frame. *)
Lemma resample_index_covers (anchor : Z) (df : DataFrame) (t : Z) :
  0 <= anchor < 7 ->
  StronglySorted Z.le (index df) ->
  In t (index df) ->
  In (week_end anchor t) (index (resample_last anchor df)).
Proof.
  intros Ha Hs Ht. unfold resample_last, index in *.
  destruct (rows df) as [|r0 rs] eqn:E; [destruct Ht|].
  cbn [rows]. rewrite map_map. cbn [fst].
  set (first := week_end anchor (fst r0)).
  set (final := week_end anchor (fst (last (r0 :: rs) r0))).
  assert (H0 : fst r0 <= t).
  { simpl in Hs, Ht. inversion Hs as [|? ? _ Hall]; subst.
    destruct Ht as [<-|Ht]; [lia|].
    rewrite Forall_forall in Hall. now apply Hall. }
  assert (H1 : t <= fst (last (r0 :: rs) r0)).
  { rewrite fst_last. now apply sorted_le_last. }
  pose proof (week_end_mono Ha H0) as Hlo.
  pose proof (week_end_mono Ha H1) as Hhi.
  fold first final in Hlo, Hhi.
  pose proof (weekday_week_end t Ha) as Wt.
  pose proof (weekday_week_end (fst r0) Ha) as W0. fold first in W0.
  set (w := week_end anchor t) in *.
  assert (Hk : w = first + 7 * ((w - first) / 7)).
  { unfold weekday in Wt, W0. Z.div_mod_to_equations. lia. }
  apply in_map_iff. exists (Z.to_nat ((w - first) / 7)). split.
  - rewrite Z2Nat.id; [lia|]. apply Z.div_pos; lia.
  - apply in_seq. split; [lia|]. simpl.
    apply Z2Nat.inj_lt.
    + apply Z.div_pos; lia.
    + assert (0 <= (final - first) / 7) by (apply Z.div_pos; lia). lia.
    + assert ((w - first) / 7 <= (final - first) / 7)
        by (apply Z.div_le_mono; lia).
      lia.
Qed.

Lemma resample_index_range (anchor : Z) (df : DataFrame) (r0 : row)
      (l : Z) :
  hd r0 (rows df) = r0 -> rows df <> [] ->
  In l (index (resample_last anchor df)) ->
  week_end anchor (fst r0) <= l
  <= week_end anchor (fst (last (rows df) r0)).
Proof.
  intros H0 Hne Hl. unfold resample_last, index in Hl.
  destruct (rows df) as [|r rs] eqn:E; [congruence|].
  cbn [hd] in H0. subst r. cbn [rows] in Hl. rewrite map_map in Hl.
  cbn [fst] in Hl. apply in_map_iff in Hl as [k [<- Hk]].
  apply in_seq in Hk.
  set (first := week_end anchor (fst r0)) in *.
  set (final := week_end anchor (fst (last (r0 :: rs) r0))) in *.
  split; [lia|].
  assert (Hlt : Z.of_nat k < (final - first) / 7 + 1) by lia.
  assert (0 <= (final - first) / 7) by lia.
  assert (0 <= final - first).
  { destruct (Z_lt_le_dec (final - first) 0) as [Hneg|]; [|lia].
    assert ((final - first) / 7 < 0) by (apply Z.div_lt_upper_bound; lia).
    lia. }
  assert (7 * ((final - first) / 7) <= final - first)
    by (apply Z.mul_div_le; lia).
  lia.
Qed.

(** X5.  One row per week, from the week of the first date to the week
    of the last: on a frame indexed in increasing date order, the
    resampled index holds the week of every row, its dates are
    consecutive anchor days, and none lies outside the weeks of the
    first and last rows. *)
Theorem resample_one_row_per_week (anchor : Z) (df : DataFrame)
        (r0 : row) :
  0 <= anchor < 7 ->
  StronglySorted Z.le (index df) ->
  hd r0 (rows df) = r0 -> rows df <> [] ->
  (forall t, In t (index df) ->
             In (week_end anchor t) (index (resample_last anchor df)))
  /\ week_apart (index (resample_last anchor df))
  /\ (forall l, In l (index (resample_last anchor df)) ->
        weekday l = anchor
        /\ week_end anchor (fst r0) <= l
           <= week_end anchor (fst (last (rows df) r0))).
Proof.
  intros Ha Hs H0 Hne. split; [|split].
  - intros t Ht. now apply resample_index_covers.
  - destruct (resample_index anchor df) as [f [n ->]].
    apply week_apart_progression.
  - intros l Hl. split.
    + destruct (resample_index anchor df) as [f [n E]].
      rewrite E in Hl. apply in_map_iff in Hl as [k [<- _]].
      rewrite weekday_plus_weeks. now apply weekday_week_end.
    + now apply resample_index_range.
Qed.

(** *** The last value of a week *)

Lemma fold_valid_some (cs : list cell) :
  forall acc v,
    fold_left (fun a c => match c with Some _ => c | None => a end) cs acc
    = Some v ->
    In (Some v) cs \/ acc = Some v.
Proof.
  induction cs as [|c cs IH]; intros acc v H; simpl in *; [now right|].
  apply IH in H as [H|H]; [left; now right|].
  destruct c; [left; left; exact H|now right].
Qed.

Lemma fold_valid_none (cs : list cell) :
  forall acc,
    fold_left (fun a c => match c with Some _ => c | None => a end) cs acc
    = None <->
    acc = None /\ forall c, In c cs -> c = None.
Proof.
  induction cs as [|c cs IH]; intros acc; simpl.
  - split; [intros ->; split; [reflexivity|tauto]|tauto].
  - rewrite IH. destruct c as [v|]; split.
    + intros [H _]. discriminate.
    + intros [_ H]. specialize (H (Some v) (or_introl eq_refl)).
      discriminate.
    + intros [-> H]. split; auto. intros c [<-|Hc]; auto.
    + intros [-> H]. split; auto.
Qed.

Lemma bin_last_nth (n j : nat) (bin : list row) :
  (j < n)%nat ->
  nth j (bin_last n bin) None
  = last_valid (map (fun r : row => nth j (snd r) None) bin).
Proof.
  intros Hj. unfold bin_last.
  rewrite (nth_indep _ None
             (last_valid (map (fun r : row => nth O (snd r) None) bin)))
    by now rewrite length_map, length_seq.
  rewrite (map_nth (fun j => last_valid
                                (map (fun r : row => nth j (snd r) None)
                                     bin))).
  now rewrite seq_nth.
Qed.

Lemma resample_row (anchor : Z) (df : DataFrame) (l : Z)
      (out : list cell) :
  In (l, out) (rows (resample_last anchor df)) ->
  out = bin_last (length (columns df))
                 (filter (fun r : row => week_end anchor (fst r) =? l)
                         (rows df)).
Proof.
  unfold resample_last. destruct (rows df) as [|r0 rs]; [intros []|].
  cbn [rows]. intros H. apply in_map_iff in H as [k [H _]].
  now inversion H.
Qed.

(** X6.  A weekly value comes from its own week: a value in the
    resampled frame is a value some row of that week has in that column,
    and the weekly cell is NaN exactly when every row of the week is NaN
    there. *)
Theorem resample_cell_from_week (anchor : Z) (df : DataFrame) (l : Z)
        (out : list cell) (j : nat) :
  In (l, out) (rows (resample_last anchor df)) ->
  (j < length (columns df))%nat ->
  (forall v, nth j out None = Some v ->
     exists t r, In (t, r) (rows df) /\ week_end anchor t = l
                 /\ nth j r None = Some v)
  /\ (nth j out None = None <->
      forall t r, In (t, r) (rows df) -> week_end anchor t = l ->
                  nth j r None = None).
Proof.
  intros Hin Hj. rewrite (@resample_row anchor df l out Hin).
  rewrite bin_last_nth by assumption. unfold last_valid. split.
  - intros v Hv. apply fold_valid_some in Hv as [Hv|Hv]; [|discriminate].
    apply in_map_iff in Hv as [[t r] [Hr Hb]].
    apply filter_In in Hb as [Hb Hw]. apply Z.eqb_eq in Hw.
    exists t, r. auto.
  - rewrite fold_valid_none. split.
    + intros [_ H] t r Hr Hw. apply H. apply in_map_iff.
      exists (t, r). split; auto. apply filter_In. split; auto.
      now apply Z.eqb_eq.
    + intros H. split; auto. intros c Hc.
      apply in_map_iff in Hc as [[t r] [<- Hb]].
      apply filter_In in Hb as [Hb Hw]. apply Z.eqb_eq in Hw.
      now apply (H t r).
Qed.

(** *** Forward fill, cell by cell *)

Lemma last_valid_snoc (cs : list cell) (c : cell) :
  last_valid (cs ++ [c])
  = match c with Some _ => c | None => last_valid cs end.
Proof. unfold last_valid. rewrite fold_left_app. reflexivity. Qed.

Lemma firstn_snoc (A : Type) (l : list A) (d : A) :
  forall i, (i < length l)%nat ->
            firstn (S i) l = firstn i l ++ [nth i l d].
Proof.
  induction l as [|x l IH]; intros i Hi; simpl in Hi; [lia|].
  destruct i as [|i]; [reflexivity|].
  rewrite firstn_cons, (IH i) by lia. reflexivity.
Qed.

Lemma ffill_cell_step (df : DataFrame) (i j : nat) :
  rectangular df ->
  (j < length (columns df))%nat -> (S i < length (rows df))%nat ->
  cell_at (rows (ffill df)) (S i) j
  = match cell_at (rows df) (S i) j with
    | Some v => Some v
    | None => cell_at (rows (ffill df)) i j
    end.
Proof.
  intros Hr Hj Hi. unfold cell_at.
  rewrite !ffill_cell by (auto; lia).
  rewrite (@firstn_snoc _ (rows df) (0, []) (S i) Hi).
  rewrite map_app. cbn [map]. rewrite last_valid_snoc.
  destruct (nth j (snd (nth (S i) (rows df) (0, []))) None); reflexivity.
Qed.

Lemma ffill_cell_first (df : DataFrame) (j : nat) :
  rectangular df ->
  (j < length (columns df))%nat -> (0 < length (rows df))%nat ->
  cell_at (rows (ffill df)) 0 j = cell_at (rows df) 0 j.
Proof.
  intros Hr Hj Hi. unfold cell_at. rewrite ffill_cell by auto.
  destruct (rows df) as [|r rs]; [simpl in Hi; lia|].
  cbn [firstn map nth]. unfold last_valid. cbn [fold_left].
  destruct (nth j (snd r) None); reflexivity.
Qed.

(** X7.  What forward fill puts in a cell: an observed value is kept; a
    NaN is replaced by the nearest value above it in the same column;
    the cell stays NaN exactly when the column has no value at or above
    that row. *)
Theorem ffill_nearest_above (df : DataFrame) (i j : nat) :
  rectangular df ->
  (j < length (columns df))%nat -> (i < length (rows df))%nat ->
  (forall v, cell_at (rows df) i j = Some v ->
             cell_at (rows (ffill df)) i j = Some v)
  /\ (forall v, cell_at (rows (ffill df)) i j = Some v ->
        exists k, (k <= i)%nat /\ cell_at (rows df) k j = Some v
                  /\ forall m, (k < m <= i)%nat ->
                                cell_at (rows df) m j = None)
  /\ (cell_at (rows (ffill df)) i j = None <->
      forall k, (k <= i)%nat -> cell_at (rows df) k j = None).
Proof.
  intros Hr Hj. induction i as [|i IH]; intros Hi.
  - rewrite ffill_cell_first by auto. split; [auto|]. split.
    + intros v Hv. exists O. split; [lia|]. split; [exact Hv|].
      intros m Hm. lia.
    + split.
      * intros H k Hk. now replace k with O by lia.
      * intros H. apply H. lia.
  - rewrite ffill_cell_step by auto.
    destruct IH as [_ [IH2 IH3]]; [lia|].
    destruct (cell_at (rows df) (S i) j) as [w|] eqn:E.
    + split; [auto|]. split.
      * intros v [= <-]. exists (S i). split; [lia|]. split; [exact E|].
        intros m Hm. lia.
      * split; [discriminate|]. intros H.
        specialize (H (S i) (Nat.le_refl _)). congruence.
    + split; [discriminate|]. split.
      * intros v Hv. destruct (IH2 v Hv) as [k [Hk [Hkv Hgap]]].
        exists k. split; [lia|]. split; [exact Hkv|].
        intros m Hm. destruct (Nat.eq_dec m (S i)) as [->|Hne]; auto.
        apply Hgap. lia.
      * rewrite IH3. split.
        -- intros H k Hk. destruct (Nat.eq_dec k (S i)) as [->|Hne]; auto.
           apply H. lia.
        -- intros H k Hk. apply H. lia.
Qed.

Lemma ffill_from_firstn (rs : list row) :
  forall prev k,
    firstn k (ffill_from prev rs) = ffill_from prev (firstn k rs).
Proof.
  induction rs as [|r rs IH]; intros prev [|k]; simpl; auto.
  now rewrite IH.
Qed.

(** X8.  Forward fill never looks ahead: the first [k] filled rows are
    the forward fill of the first [k] rows, whatever comes after. *)
Theorem ffill_no_lookahead (df : DataFrame) (k : nat) :
  firstn k (rows (ffill df))
  = rows (ffill (mkDF (columns df) (firstn k (rows df)))).
Proof. unfold ffill. cbn [rows]. apply ffill_from_firstn. Qed.

(** *** A column that never has a value *)

Lemma ffill_from_nan_column (n j : nat) (rs : list row) :
  forall prev,
    (j < n)%nat ->
    nth j prev None = None ->
    Forall (fun r : row => length (snd r) = n) rs ->
    (forall r, In r rs -> nth j (snd r) None = None) ->
    forall r, In r (ffill_from prev rs) -> nth j (snd r) None = None.
Proof.
  induction rs as [|r0 rs IH]; intros prev Hj Hp Hl Hn r Hr;
    [destruct Hr|].
  inversion Hl as [|? ? Hl0 Hl']; subst.
  assert (H0 : nth j (fill_row prev (snd r0)) None = None).
  { rewrite fill_row_nth by lia. rewrite (Hn r0) by now left. exact Hp. }
  simpl in Hr. destruct Hr as [<-|Hr]; [exact H0|].
  apply (IH (fill_row prev (snd r0))); auto.
  intros x Hx. apply Hn. now right.
Qed.

Lemma nan_not_complete (r : row) (j : nat) :
  (j < length (snd r))%nat -> nth j (snd r) None = None ->
  complete r = false.
Proof.
  intros Hj Hn. destruct (complete r) eqn:E; auto.
  unfold complete in E. rewrite forallb_forall in E.
  assert (Hin : In (nth j (snd r) None) (snd r)) by now apply nth_In.
  apply E in Hin. rewrite Hn in Hin. discriminate.
Qed.

Lemma filter_none (A : Type) (f : A -> bool) (l : list A) :
  (forall x, In x l -> f x = false) -> filter f l = [].
Proof.
  induction l as [|x l IH]; intros H; simpl; auto.
  rewrite (H x) by now left. apply IH. intros y Hy. apply H. now right.
Qed.

(** A column with no value at all empties the cleaned frame: forward
    fill has nothing to fill it with, so [dropna] drops every week. *)
Lemma nan_column_rows (anchor : Z) (all_data : DataFrame) (j : nat) :
  (j < length (columns all_data))%nat ->
  (forall r, In r (rows all_data) -> nth j (snd r) None = None) ->
  rows (clean_weekly anchor all_data) = [].
Proof.
  intros Hj Hn. unfold clean_weekly, dropna, ffill. cbn [rows].
  pose proof (resample_rectangular anchor all_data) as Hrect.
  unfold rectangular in Hrect.
  assert (Hc : columns (resample_last anchor all_data) = columns all_data).
  { unfold resample_last. destruct (rows all_data); reflexivity. }
  rewrite Hc in Hrect.
  assert (Hw : forall r, In r (rows (resample_last anchor all_data)) ->
                         nth j (snd r) None = None).
  { intros [l out] Hr. cbn [snd].
    rewrite (@resample_row anchor all_data l out Hr).
    rewrite bin_last_nth by assumption. unfold last_valid.
    apply fold_valid_none. split; auto. intros c Hc'.
    apply in_map_iff in Hc' as [r [<- Hb]].
    apply filter_In in Hb as [Hb _]. now apply Hn. }
  apply filter_none. intros r Hr.
  apply nan_not_complete with (j := j).
  - pose proof (ffill_from_lengths [] Hrect) as Hl.
    rewrite Forall_forall in Hl. rewrite (Hl r Hr). exact Hj.
  - apply (@ffill_from_nan_column (length (columns all_data)) j
             (rows (resample_last anchor all_data)) []); auto.
    now destruct j.
Qed.

(** *** Frames that are already weekly *)

Lemma week_end_fixed (anchor t : Z) :
  0 <= anchor < 7 -> weekday t = anchor -> week_end anchor t = t.
Proof.
  unfold week_end, weekday. intros Ha Ht. Z.div_mod_to_equations. lia.
Qed.

Lemma week_apart_nth (l : list Z) (d : Z) :
  week_apart l ->
  forall k, (k < length l)%nat -> nth k l d = hd d l + 7 * Z.of_nat k.
Proof.
  induction l as [|a l IH]; intros Hw k Hk; simpl in Hk; [lia|].
  destruct k as [|k]; [simpl; lia|].
  destruct l as [|b l]; [simpl in Hk; lia|].
  destruct Hw as [Hb Hw].
  change (nth (S k) (a :: b :: l) d) with (nth k (b :: l) d).
  rewrite (IH Hw k) by (simpl in *; lia).
  cbn [hd]. lia.
Qed.

Lemma filter_one (rs : list row) :
  StronglySorted Z.lt (map fst rs) ->
  forall x, In x rs ->
            filter (fun r : row => fst r =? fst x) rs = [x].
Proof.
  induction rs as [|r rs IH]; intros Hs x Hx; [destruct Hx|].
  simpl in Hs. inversion Hs as [|? ? Hs' Hall]; subst.
  rewrite Forall_forall in Hall. simpl.
  destruct Hx as [->|Hx].
  - rewrite Z.eqb_refl. f_equal. apply filter_none.
    intros y Hy. apply Z.eqb_neq.
    assert (fst x < fst y) by (apply Hall; now apply in_map). lia.
  - assert (fst r < fst x) by (apply Hall; now apply in_map).
    destruct (Z.eqb_spec (fst r) (fst x)); [lia|]. now apply IH.
Qed.

Lemma week_apart_strict (l : list Z) :
  week_apart l -> StronglySorted Z.lt l.
Proof.
  intros H. apply Sorted_StronglySorted.
  - intros x y z; lia.
  - now apply week_apart_lt.
Qed.

Lemma nth_all (A : Type) (l : list A) (d : A) :
  map (fun j => nth j l d) (seq 0 (length l)) = l.
Proof.
  apply nth_ext with (d := d) (d' := d).
  - now rewrite length_map, length_seq.
  - intros n Hn. rewrite length_map, length_seq in Hn.
    rewrite (nth_indep _ d (nth O l d))
      by now rewrite length_map, length_seq.
    rewrite (map_nth (fun j => nth j l d)). now rewrite seq_nth.
Qed.

Lemma bin_last_one (r : row) :
  bin_last (length (snd r)) [r] = snd r.
Proof.
  unfold bin_last, last_valid. cbn [map fold_left].
  transitivity (map (fun j => nth j (snd r) None)
                    (seq 0 (length (snd r)))); [|apply nth_all].
  apply map_ext. intros j. destruct (nth j (snd r) None); reflexivity.
Qed.

Lemma week_apart_last (l : list Z) (d : Z) :
  week_apart l -> l <> [] ->
  last l d = hd d l + 7 * Z.of_nat (length l - 1).
Proof.
  induction l as [|a l IH]; intros Hw Hne; [congruence|].
  destruct l as [|b l]; [simpl; lia|].
  destruct Hw as [Hb Hw].
  change (last (a :: b :: l) d) with (last (b :: l) d).
  rewrite IH by (auto; discriminate). cbn [hd length]. lia.
Qed.

(** Resampling a frame whose rows already are consecutive anchor days
    gives the frame back. *)
Lemma resample_weekly (anchor : Z) (df : DataFrame) :
  0 <= anchor < 7 ->
  rectangular df ->
  week_apart (index df) ->
  Forall (fun t => weekday t = anchor) (index df) ->
  resample_last anchor df = df.
Proof.
  intros Ha Hr Hw Hd. destruct df as [cols rs]. unfold resample_last.
  unfold rectangular, index in *. cbn [rows columns] in *.
  destruct rs as [|r0 rs]; [reflexivity|]. f_equal.
  set (all := r0 :: rs) in *.
  rewrite Forall_forall in Hd, Hr.
  assert (Hfix : forall r, In r all -> week_end anchor (fst r) = fst r).
  { intros r Hin. apply week_end_fixed; auto. apply Hd. now apply in_map. }
  assert (Hnth : forall k, (k < length all)%nat ->
                 fst (nth k all r0) = fst r0 + 7 * Z.of_nat k).
  { intros k Hk.
    transitivity (nth k (map fst all) (fst r0));
      [symmetry; apply (map_nth (@fst Z (list cell)))|].
    rewrite (@week_apart_nth (map fst all) (fst r0) Hw k)
      by now rewrite length_map.
    reflexivity. }
  assert (Hlast : fst (last all r0)
                  = fst r0 + 7 * Z.of_nat (length all - 1)).
  { rewrite fst_last.
    rewrite (@week_apart_last (map fst all) (fst r0) Hw)
      by (unfold all; discriminate).
    now rewrite length_map. }
  assert (Hin0 : In r0 all) by now left.
  assert (Hinl : In (last all r0) all).
  { unfold all. destruct (exists_last (l := r0 :: rs)) as [l' [x E]];
      [discriminate|].
    rewrite E, last_last. apply in_or_app. right. now left. }
  rewrite (Hfix _ Hin0), (Hfix _ Hinl), Hlast.
  replace (fst r0 + 7 * Z.of_nat (length all - 1) - fst r0)
    with (Z.of_nat (length all - 1) * 7) by lia.
  rewrite Z.div_mul by lia.
  replace (Z.to_nat (Z.of_nat (length all - 1) + 1)) with (length all)
    by (unfold all; simpl; lia).
  transitivity (map (fun k => nth k all r0) (seq 0 (length all)));
    [|apply nth_all].
  apply map_ext_in. intros k Hk. apply in_seq in Hk.
  assert (Hk' : (k < length all)%nat) by lia.
  set (x := nth k all r0).
  assert (Hx : In x all) by (apply nth_In; exact Hk').
  rewrite <- (Hnth k Hk'). fold x.
  rewrite (@filter_ext_in _ (fun r : row => week_end anchor (fst r) =? fst x)
             (fun r : row => fst r =? fst x) all)
    by (intros r Hin; now rewrite (Hfix r Hin)).
  rewrite (@filter_one all (@week_apart_strict (map fst all) Hw) x Hx).
  rewrite <- (Hr x Hx), bin_last_one. now destruct x.
Qed.

Lemma fill_row_complete_id (r : list cell) :
  forall prev, forallb (@is_value V) r = true -> fill_row prev r = r.
Proof.
  induction r as [|c r IH]; intros prev H; simpl in *; auto.
  apply andb_true_iff in H as [Hc H]. rewrite IH by assumption.
  destruct c; [reflexivity|discriminate].
Qed.

Lemma ffill_from_complete_id (rs : list row) :
  forall prev,
    Forall (fun r : row => complete r = true) rs ->
    ffill_from prev rs = rs.
Proof.
  induction rs as [|r rs IH]; intros prev H; simpl; auto.
  inversion H as [|? ? Hr Hrs]; subst.
  rewrite fill_row_complete_id by exact Hr. rewrite IH by assumption.
  now destruct r.
Qed.

(** X9.  Cleaning is idempotent: running the cleaning cell on a frame
    it has produced gives that frame back, row for row. *)
Theorem clean_weekly_idempotent (anchor : Z) (all_data : DataFrame) :
  0 <= anchor < 7 ->
  clean_weekly anchor (clean_weekly anchor all_data)
  = clean_weekly anchor all_data.
Proof.
  intros Ha.
  destruct (@clean_weekly_dense_weekly V anchor all_data Ha)
    as [Hrows [_ [Hw Hd]]].
  set (out := clean_weekly anchor all_data) in *.
  assert (Hrect : rectangular out).
  { apply Forall_forall. intros r Hr. now apply Hrows. }
  assert (Hc : Forall (fun r : row => complete r = true) (rows out)).
  { apply Forall_forall. intros r Hr. unfold complete.
    apply forallb_forall. intros c Hin.
    destruct (Hrows r Hr) as [_ Hno]. specialize (Hno c Hin).
    destruct c; [reflexivity|congruence]. }
  unfold clean_weekly at 1.
  rewrite (@resample_weekly anchor out Ha Hrect Hw Hd).
  unfold dropna, ffill. cbn [rows columns].
  rewrite ffill_from_complete_id by exact Hc.
  rewrite filter_all by exact Hc. now destruct out.
Qed.

(** *** When the cleaned frame is empty *)

Lemma forallb_nth (l : list cell) :
  (forall j, (j < length l)%nat -> nth j l None <> None) ->
  forallb (@is_value V) l = true.
Proof.
  intros H. apply forallb_forall. intros c Hc.
  destruct (In_nth _ _ None Hc) as [j [Hj E]].
  specialize (H j Hj). destruct c; [reflexivity|].
  exfalso. apply H. exact E.
Qed.

Lemma resample_columns (anchor : Z) (df : DataFrame) :
  columns (resample_last anchor df) = columns df.
Proof. unfold resample_last. destruct (rows df); reflexivity. Qed.

Lemma index_row (rs : list row) (t : Z) :
  In t (map fst rs) -> exists r, In (t, r) rs.
Proof.
  intros H. apply in_map_iff in H as [[u r] [E H]]. simpl in E. subst u.
  now exists r.
Qed.

Lemma ffill_from_length (rs : list row) :
  forall prev, length (ffill_from prev rs) = length rs.
Proof.
  induction rs as [|r rs IH]; intros prev; simpl; auto.
Qed.

(** When every column has a value somewhere, the last week is complete
    after forward fill. *)
Lemma last_week_complete (anchor : Z) (all_data : DataFrame) :
  0 <= anchor < 7 ->
  StronglySorted Z.le (index all_data) ->
  (forall j, (j < length (columns all_data))%nat ->
     exists r, In r (rows all_data) /\ nth j (snd r) None <> None) ->
  forall d,
    rows (resample_last anchor all_data) <> [] ->
    complete (last (rows (ffill (resample_last anchor all_data))) d)
    = true.
Proof.
  intros Ha Hs Hval d Hne.
  set (wk := resample_last anchor all_data) in *.
  pose proof (resample_rectangular anchor all_data) as Hrect. fold wk in Hrect.
  assert (Hlen : length (rows (ffill wk)) = length (rows wk)).
  { unfold ffill. cbn [rows]. apply ffill_from_length. }
  assert (Hpos : (0 < length (rows wk))%nat)
    by (destruct (rows wk); [congruence|simpl; lia]).
  set (i := (length (rows wk) - 1)%nat).
  assert (Hlast : last (rows (ffill wk)) d = nth i (rows (ffill wk)) d).
  { destruct (@exists_last _ (rows (ffill wk))) as [l' [x E]].
    - intros E. rewrite E in Hlen. simpl in Hlen. lia.
    - rewrite E, last_last. rewrite E, length_app in Hlen. simpl in Hlen.
      unfold i. rewrite <- Hlen.
      replace (length l' + 1 - 1)%nat with (length l') by lia.
      now rewrite nth_middle. }
  rewrite Hlast.
  assert (Hrow : length (snd (nth i (rows (ffill wk)) d))
                 = length (columns wk)).
  { pose proof (ffill_from_lengths [] Hrect) as Hl.
    rewrite Forall_forall in Hl. apply Hl.
    apply nth_In. unfold ffill in Hlen. cbn [rows] in Hlen. lia. }
  unfold complete. apply forallb_nth. intros j Hj. rewrite Hrow in Hj.
  rewrite (nth_indep (rows (ffill wk)) d (0, []))
    by (rewrite Hlen; unfold i; lia).
  rewrite ffill_cell by (auto; unfold i; lia).
  replace (S i) with (length (rows wk)) by (unfold i; lia).
  rewrite firstn_all. unfold last_valid. intros Hnone.
  apply fold_valid_none in Hnone as [_ Hnone].
  unfold wk in Hj. rewrite resample_columns in Hj.
  destruct (Hval j Hj) as [[t r] [Hr Hv]]. cbn [snd] in Hv.
  assert (Hin : In (week_end anchor t) (index wk)).
  { apply resample_index_covers; auto. unfold index.
    apply in_map_iff. now exists (t, r). }
  destruct (index_row _ _ Hin) as [out Hout].
  assert (Hcell : nth j out None = None).
  { apply (Hnone (nth j out None)). apply in_map_iff.
    now exists (week_end anchor t, out). }
  rewrite (@resample_row anchor all_data _ out Hout) in Hcell.
  rewrite bin_last_nth in Hcell by assumption.
  apply fold_valid_none in Hcell as [_ Hcell].
  apply Hv, Hcell. apply in_map_iff. exists (t, r). split; auto.
  apply filter_In. split; auto. apply Z.eqb_refl.
Qed.

(** X10.  When the cleaned frame is empty.  A column that has no value at
    all empties it: [dropna] drops every week.  Conversely, on a frame
    indexed in increasing date order with at least one row, if every
    column has a value somewhere then the cleaned frame keeps at least
    the last week. *)
Theorem clean_weekly_empty (anchor : Z) (all_data : DataFrame) :
  0 <= anchor < 7 ->
  StronglySorted Z.le (index all_data) ->
  rows all_data <> [] ->
  ((exists j, (j < length (columns all_data))%nat
              /\ forall r, In r (rows all_data) ->
                           nth j (snd r) None = None) ->
   rows (clean_weekly anchor all_data) = [])
  /\ ((forall j, (j < length (columns all_data))%nat ->
         exists r, In r (rows all_data) /\ nth j (snd r) None <> None) ->
      rows (clean_weekly anchor all_data) <> []).
Proof.
  intros Ha Hs Hne. split.
  - intros [j [Hj Hn]]. now apply nan_column_rows with (j := j).
  - intros Hval.
    assert (Hwk : rows (resample_last anchor all_data) <> []).
    { destruct (rows all_data) as [|r0 rs] eqn:E; [congruence|].
      assert (Hin : In (week_end anchor (fst r0))
                       (index (resample_last anchor all_data))).
      { apply resample_index_covers; auto. unfold index. rewrite E.
        now left. }
      unfold index in Hin.
      destruct (rows (resample_last anchor all_data)); [destruct Hin|].
      discriminate. }
    pose proof (@last_week_complete anchor all_data Ha Hs Hval
                  (0, []) Hwk) as Hc.
    unfold clean_weekly, dropna. cbn [rows]. intros Hnil.
    assert (Hin : In (last (rows (ffill (resample_last anchor all_data)))
                           (0, []))
                     (filter (@complete V)
                        (rows (ffill (resample_last anchor all_data))))).
    { apply filter_In. split; auto.
      destruct (@exists_last _
                  (rows (ffill (resample_last anchor all_data))))
        as [l' [x E]].
      - unfold ffill. cbn [rows]. intros E.
        apply (f_equal (map fst)) in E. rewrite ffill_from_index in E.
        destruct (rows (resample_last anchor all_data));
          [congruence|discriminate].
      - rewrite E, last_last. apply in_or_app. right. now left. }
    rewrite Hnil in Hin. destruct Hin.
Qed.

(** *** The FRED frame in the pipeline *)

Lemma set_nth_length (c : cell) (r : list cell) :
  forall j, length (set_nth j c r) = length r.
Proof.
  induction r as [|x r IH]; intros [|j]; simpl; auto.
Qed.

Lemma setitem_rectangular (df : DataFrame) (key : string) (s : Series) :
  rectangular df -> rectangular (setitem df key s).
Proof.
  intros Hr. unfold rectangular, setitem in *. cbn [rows columns].
  rewrite Forall_forall in *.
  intros r Hin. apply in_map_iff in Hin as [r0 [<- Hin]]. cbn [snd].
  assert (Hl : length (snd r0) = length (columns df)).
  { destruct (rows df) as [|x rs] eqn:E.
    - apply in_map_iff in Hin as [p [<- _]]. cbn [snd].
      apply repeat_length.
    - now apply Hr. }
  destruct (index_of key (columns df)).
  - now rewrite set_nth_length.
  - rewrite !length_app, Hl. reflexivity.
Qed.

Lemma fred_frame_rectangular (get_series : string -> Series) :
  rectangular (fred_frame get_series).
Proof.
  unfold fred_frame, fred_tickers. cbn [fold_left fst snd].
  repeat apply setitem_rectangular. constructor.
Qed.

Lemma reindex_fred_row (get_series : string -> Series) (t : Z) :
  get_series "T10Y2Y"%string <> [] ->
  reindex_row (fred_frame get_series) t
  = if in_dec Z.eq_dec t (map fst (get_series "T10Y2Y"%string))
    then [series_at (get_series "T10Y2Y"%string) t;
          series_at (get_series "BAMLC0A0CMEY"%string) t;
          series_at (get_series "USRECP"%string) t]
    else [None; None; None].
Proof.
  intros Hne. unfold reindex_row.
  rewrite (@fred_frame_rows get_series Hne), lookup_row_built.
  destruct (in_dec Z.eq_dec t (map fst (get_series "T10Y2Y"%string)));
    reflexivity.
Qed.

(** X11.  A FRED series that has no value on any date of [T10Y2Y], such
    as a monthly series whose dates all fall on days the daily series
    skips, leaves its column without a value: stage 1 then writes a
    frame with no row. *)
Theorem unaligned_series_empties (yf_data : DataFrame)
        (get_series : string -> Series) (key : string) :
  rectangular yf_data ->
  get_series "T10Y2Y"%string <> [] ->
  In key (map fst fred_tickers) ->
  (forall t, In t (map fst (get_series "T10Y2Y"%string)) ->
             series_at (get_series key) t = None) ->
  rows (cleaned_market_data yf_data get_series) = [].
Proof.
  intros Hr Hne Hkey Hnone.
  assert (Hpos : exists k, (k < 3)%nat
            /\ forall t, nth k (reindex_row (fred_frame get_series) t)
                             None = None).
  { cbn in Hkey. destruct Hkey as [<-|[<-|[<-|[]]]];
      [exists 0%nat|exists 1%nat|exists 2%nat];
      (split; [lia|]); intros t;
      rewrite (@reindex_fred_row get_series t Hne);
      destruct (in_dec Z.eq_dec t
                  (map fst (get_series "T10Y2Y"%string)));
      try reflexivity; cbn [nth]; now apply Hnone. }
  destruct Hpos as [k [Hk Hcell]].
  unfold cleaned_market_data.
  apply nan_column_rows with (j := (length (columns yf_data) + k)%nat).
  - unfold consolidate, concat_outer. cbn [columns].
    rewrite length_app. cbn. lia.
  - intros r Hin. unfold consolidate, concat_outer in Hin.
    cbn [rows] in Hin. apply in_map_iff in Hin as [t [<- _]]. cbn [snd].
    rewrite <- (@reindex_row_length V yf_data t Hr). rewrite app_nth2_plus.
    apply Hcell.
Qed.

End Laws.

(** *** The statements above on the sample inputs *)

Ltac sorted_dates :=
  repeat first [ apply SSorted_nil | apply SSorted_cons
               | apply Forall_nil | apply Forall_cons | lia ].

Lemma yf_sample_rectangular : rectangular Samples.yf_sample.
Proof. repeat constructor. Qed.

Lemma daily_panel_rectangular : rectangular Samples.daily_panel.
Proof. repeat constructor. Qed.

Lemma daily_panel_sorted : StronglySorted Z.le (index Samples.daily_panel).
Proof. unfold index. simpl. sorted_dates. Qed.

Lemma friday_in_range : 0 <= FRI < 7.
Proof. unfold FRI. lia. Qed.

Lemma concat_outer_is_outer_join_witness :
  let a := Samples.yf_sample in
  let b := fred_frame Samples.fred_sample in
  rectangular a /\ rectangular b
  /\ columns (concat_outer a b) = columns a ++ columns b
  /\ StronglySorted Z.lt (index (concat_outer a b))
  /\ (forall t, In t (index (concat_outer a b))
                <-> In t (index a) \/ In t (index b))
  /\ rectangular (concat_outer a b)
  /\ (forall t k, In k (columns a) ->
        at_ (concat_outer a b) t k = at_ a t k)
  /\ (forall t k, ~ In k (columns a) ->
        at_ (concat_outer a b) t k = at_ b t k).
Proof.
  intros a b.
  assert (Ha : rectangular a) by exact yf_sample_rectangular.
  assert (Hb : rectangular b) by apply fred_frame_rectangular.
  split; [exact Ha|]. split; [exact Hb|].
  exact (@concat_outer_is_outer_join R a b Ha Hb).
Defined.

Lemma fred_sample_first : Samples.fred_sample "T10Y2Y" <> [].
Proof. discriminate. Qed.

Lemma usrecp_is_key : In "USRECP"%string (map fst fred_tickers).
Proof. cbn. tauto. Qed.

Lemma fred_frame_aligned_witness :
  let get_series := Samples.fred_sample in
  get_series "T10Y2Y"%string <> []
  /\ In "USRECP"%string (map fst fred_tickers)
  /\ columns (fred_frame get_series) = map fst fred_tickers
  /\ index (fred_frame get_series)
     = map fst (get_series "T10Y2Y"%string)
  /\ at_ (fred_frame get_series) 11048 "USRECP"
     = if in_dec Z.eq_dec 11048 (map fst (get_series "T10Y2Y"%string))
       then series_at (get_series "USRECP"%string) 11048
       else None.
Proof.
  intros get_series.
  split; [exact fred_sample_first|]. split; [exact usrecp_is_key|].
  exact (@fred_frame_aligned R Samples.fred_sample 11048 "USRECP"
           fred_sample_first usrecp_is_key).
Defined.

Lemma week_end_bin_witness :
  0 <= FRI < 7 /\ weekday 11054 = FRI
  /\ (week_end FRI 11048 = 11054 <-> 11054 - 7 < 11048 <= 11054).
Proof.
  assert (Hw : weekday 11054 = FRI) by reflexivity.
  split; [exact friday_in_range|]. split; [exact Hw|].
  exact (@week_end_bin FRI 11054 11048 friday_in_range Hw).
Defined.

Lemma daily_panel_first :
  hd (4, [Some 1%nat; None]) (rows Samples.daily_panel)
  = (4, [Some 1%nat; None]).
Proof. reflexivity. Qed.

Lemma daily_panel_rows : rows Samples.daily_panel <> [].
Proof. discriminate. Qed.

Lemma resample_one_row_per_week_witness :
  let df := Samples.daily_panel in
  let r0 : row nat := (4, [Some 1%nat; None]) in
  0 <= FRI < 7
  /\ StronglySorted Z.le (index df)
  /\ hd r0 (rows df) = r0 /\ rows df <> []
  /\ (forall t, In t (index df) ->
                In (week_end FRI t) (index (resample_last FRI df)))
  /\ week_apart (index (resample_last FRI df))
  /\ (forall l, In l (index (resample_last FRI df)) ->
        weekday l = FRI
        /\ week_end FRI (fst r0) <= l
           <= week_end FRI (fst (last (rows df) r0))).
Proof.
  intros df r0.
  split; [exact friday_in_range|]. split; [exact daily_panel_sorted|].
  split; [exact daily_panel_first|]. split; [exact daily_panel_rows|].
  exact (@resample_one_row_per_week nat FRI Samples.daily_panel r0
           friday_in_range daily_panel_sorted daily_panel_first
           daily_panel_rows).
Defined.

Lemma daily_first_week :
  In (8, [Some 2%nat; Some 9%nat])
     (rows (resample_last FRI Samples.daily_panel)).
Proof. vm_compute. tauto. Qed.

Lemma daily_second_column :
  (1 < length (columns Samples.daily_panel))%nat.
Proof. simpl. lia. Qed.

Lemma resample_cell_from_week_witness :
  let df := Samples.daily_panel in
  let out := [Some 2%nat; Some 9%nat] in
  In (8, out) (rows (resample_last FRI df))
  /\ (1 < length (columns df))%nat
  /\ (forall v, nth 1 out None = Some v ->
        exists t r, In (t, r) (rows df) /\ week_end FRI t = 8
                    /\ nth 1 r None = Some v)
  /\ (nth 1 out None = None <->
      forall t r, In (t, r) (rows df) -> week_end FRI t = 8 ->
                  nth 1 r None = None).
Proof.
  intros df out.
  split; [exact daily_first_week|]. split; [exact daily_second_column|].
  exact (@resample_cell_from_week nat FRI Samples.daily_panel 8 out 1%nat
           daily_first_week daily_second_column).
Defined.

Lemma late_start_first_column :
  (0 < length (columns Samples.late_start_panel))%nat.
Proof. simpl. lia. Qed.

Lemma late_start_fourth_row :
  (3 < length (rows Samples.late_start_panel))%nat.
Proof. simpl. lia. Qed.

Lemma ffill_nearest_above_witness :
  let df := Samples.late_start_panel in
  rectangular df
  /\ (0 < length (columns df))%nat /\ (3 < length (rows df))%nat
  /\ (forall v, cell_at (rows df) 3 0 = Some v ->
                cell_at (rows (ffill df)) 3 0 = Some v)
  /\ (forall v, cell_at (rows (ffill df)) 3 0 = Some v ->
        exists k, (k <= 3)%nat /\ cell_at (rows df) k 0 = Some v
                  /\ forall m, (k < m <= 3)%nat ->
                                cell_at (rows df) m 0 = None)
  /\ (cell_at (rows (ffill df)) 3 0 = None <->
      forall k, (k <= 3)%nat -> cell_at (rows df) k 0 = None).
Proof.
  intros df.
  split; [exact late_start_rectangular|].
  split; [exact late_start_first_column|].
  split; [exact late_start_fourth_row|].
  exact (@ffill_nearest_above nat Samples.late_start_panel 3%nat 0%nat
           late_start_rectangular late_start_first_column
           late_start_fourth_row).
Defined.

Lemma clean_weekly_empty_witness :
  let all_data := Samples.daily_panel in
  0 <= FRI < 7
  /\ StronglySorted Z.le (index all_data)
  /\ rows all_data <> []
  /\ ((exists j, (j < length (columns all_data))%nat
                 /\ forall r, In r (rows all_data) ->
                              nth j (snd r) None = None) ->
      rows (clean_weekly FRI all_data) = [])
  /\ ((forall j, (j < length (columns all_data))%nat ->
         exists r, In r (rows all_data) /\ nth j (snd r) None <> None) ->
      rows (clean_weekly FRI all_data) <> []).
Proof.
  intros all_data.
  split; [exact friday_in_range|]. split; [exact daily_panel_sorted|].
  split; [exact daily_panel_rows|].
  exact (@clean_weekly_empty nat FRI Samples.daily_panel friday_in_range
           daily_panel_sorted daily_panel_rows).
Defined.

Lemma clean_weekly_idempotent_witness :
  0 <= FRI < 7
  /\ clean_weekly FRI (clean_weekly FRI Samples.daily_panel)
     = clean_weekly FRI Samples.daily_panel.
Proof.
  split; [exact friday_in_range|].
  exact (@clean_weekly_idempotent nat FRI Samples.daily_panel
           friday_in_range).
Defined.

(** The daily panel, cleaned: its two weeks, the second filled from the
    first. *)
Example clean_daily_panel :
  clean_weekly FRI Samples.daily_panel
  = mkDF ["A"; "B"]%string
         [(8, [Some 2%nat; Some 9%nat]); (15, [Some 4%nat; Some 9%nat])].
Proof. reflexivity. Qed.

Lemma fred_unaligned_first : Samples.fred_unaligned "T10Y2Y" <> [].
Proof. discriminate. Qed.

Lemma fred_unaligned_usrecp :
  forall t, In t (map fst (Samples.fred_unaligned "T10Y2Y")) ->
            series_at (Samples.fred_unaligned "USRECP") t = None.
Proof.
  intros t Ht. simpl in Ht. destruct Ht as [<-|[<-|[]]]; reflexivity.
Qed.

Lemma unaligned_series_empties_witness :
  rectangular Samples.yf_sample
  /\ Samples.fred_unaligned "T10Y2Y" <> []
  /\ In "USRECP"%string (map fst fred_tickers)
  /\ (forall t, In t (map fst (Samples.fred_unaligned "T10Y2Y")) ->
                series_at (Samples.fred_unaligned "USRECP") t = None)
  /\ rows (cleaned_market_data Samples.yf_sample Samples.fred_unaligned)
     = [].
Proof.
  split; [exact yf_sample_rectangular|].
  split; [exact fred_unaligned_first|]. split; [exact usrecp_is_key|].
  split; [exact fred_unaligned_usrecp|].
  exact (@unaligned_series_empties R Samples.yf_sample
           Samples.fred_unaligned "USRECP" yf_sample_rectangular
           fred_unaligned_first usrecp_is_key fred_unaligned_usrecp).
Defined.

End CleaningLaws.

(** ** More facts about index construction *)

Module IndexLaws.

Import Frame Index IndexFacts.

Open Scope R_scope.

(** *** Column selection *)

Lemma missing_none (names cols : list string) :
  (forall n, In n names -> In n cols) -> missing_columns names cols = [].
Proof.
  intros H. unfold missing_columns.
  induction names as [|n names IH]; simpl; auto.
  assert (Hn : has_column cols n = true)
    by (apply has_column_In, H; now left).
  rewrite Hn. simpl. apply IH. intros m Hm. apply H. now right.
Qed.

Lemma lookup_row_map (g : list (cell R) -> list (cell R)) (t : Z)
      (rs : list (row R)) :
  lookup_row t (map (fun r : row R => (fst r, g (snd r))) rs)
  = option_map g (lookup_row t rs).
Proof.
  unfold lookup_row. induction rs as [|r rs IH]; simpl; auto.
  destruct (Z.eqb (fst r) t); simpl; auto.
Qed.

Lemma index_of_nth (n : string) (names : list string) (j : nat) :
  index_of n names = Some j -> nth j names ""%string = n.
Proof.
  revert j; induction names as [|m names IH]; intros j; simpl;
    [discriminate|].
  destruct (String.eqb_spec n m) as [->|Hne].
  - now intros [= <-].
  - destruct (index_of n names) as [k|]; simpl; [|discriminate].
    intros [= <-]. now apply IH.
Qed.

Lemma nth_map_names (f : string -> cell R) (names : list string)
      (j : nat) :
  (j < length names)%nat ->
  nth j (map f names) None = f (nth j names ""%string).
Proof.
  intros Hj. rewrite (nth_indep _ None (f ""%string))
    by now rewrite length_map.
  apply map_nth.
Qed.

(** X12.  [df[[names]]] when every name is a column: the selection has
    the requested columns in the requested order, the index of [df], and
    under each name the cells [df] has under it, wherever the column
    stands in [df]. *)
Theorem getitem_selects (df : DataFrame R) (names : list string) :
  (forall n, In n names -> In n (columns df)) ->
  exists rf,
    getitem df names = inr rf
    /\ columns rf = names
    /\ index rf = index df
    /\ forall t n, In n names -> at_ rf t n = at_ df t n.
Proof.
  intros Hall. unfold getitem. rewrite (missing_none _ _ Hall).
  eexists. split; [reflexivity|]. split; [reflexivity|]. split.
  - unfold index. cbn [rows]. rewrite map_map. reflexivity.
  - intros t n Hn. unfold at_. cbn [rows columns].
    rewrite (lookup_row_map
               (fun r => map (fun n =>
                                match index_of n (columns df) with
                                | Some j => nth j r None
                                | None => None
                                end) names)).
    destruct (lookup_row t (rows df)) as [r|]; [|reflexivity].
    cbn [option_map].
    destruct (CleaningFacts.index_of_In n names) as [Hi _].
    specialize (Hi Hn).
    destruct (index_of n names) as [j|] eqn:E; [|congruence].
    rewrite nth_map_names
      by (apply CleaningFacts.index_of_bound with (c := n); exact E).
    rewrite (index_of_nth _ _ E).
    destruct (index_of n (columns df)); reflexivity.
Qed.

(** X13.  [df[[names]]] when a name is not a column: a [KeyError] whose
    list holds exactly the requested names the frame does not have. *)
Theorem getitem_key_error (df : DataFrame R) (names : list string)
        (n : string) :
  In n names -> ~ In n (columns df) ->
  exists missing,
    getitem df names = inl (KeyError missing)
    /\ forall m, In m missing <-> In m names /\ ~ In m (columns df).
Proof.
  intros Hn Ha. exists (missing_columns names (columns df)).
  assert (Hin : In n (missing_columns names (columns df)))
    by now apply missing_columns_In.
  split.
  - unfold getitem.
    destruct (missing_columns names (columns df)); [destruct Hin|].
    reflexivity.
  - intros m. apply missing_columns_In.
Qed.

(** *** Inputs the construction refuses *)

Section Refusals.

Variable pca : matrix -> PCAResult.

(** X14.  A frame that has the three columns but no row: the run stops
    in [StandardScaler] with a [ValueError], before any decomposition. *)
Theorem build_sri_no_rows (df : DataFrame R) :
  (forall n, In n risk_factor_names -> In n (columns df)) ->
  rows df = [] ->
  build_sri pca df = inl (ValueError "Found array with 0 sample(s)").
Proof.
  intros Hall Hrows. unfold build_sri, getitem.
  rewrite (missing_none _ _ Hall), Hrows. reflexivity.
Qed.

Lemma all_values_nan (cs : list (cell R)) :
  In None cs -> all_values cs = None.
Proof.
  induction cs as [|c cs IH]; intros H; [destruct H|].
  destruct c as [v|]; [|reflexivity].
  destruct H as [H|H]; [discriminate|]. simpl. now rewrite IH.
Qed.

Lemma all_columns_nan (cols : list (list (cell R)))
      (c : list (cell R)) :
  In c cols -> all_values c = None -> all_columns cols = None.
Proof.
  induction cols as [|c0 cols IH]; intros Hin Hc; [destruct Hin|].
  simpl. destruct Hin as [->|Hin].
  - now rewrite Hc.
  - rewrite (IH Hin Hc). now destruct (all_values c0).
Qed.

(** X15.  A NaN under one of the three selected columns, in any row:
    the run stops with the [ValueError] of the decomposition and
    produces nothing. *)
Theorem build_sri_nan (df : DataFrame R) (r : row R) (n : string)
        (i : nat) :
  (forall m, In m risk_factor_names -> In m (columns df)) ->
  In r (rows df) ->
  In n risk_factor_names ->
  index_of n (columns df) = Some i ->
  nth i (snd r) None = None ->
  build_sri pca df = inl (ValueError "Input X contains NaN.").
Proof.
  intros Hall Hr Hn Hi Hnan. unfold build_sri, getitem.
  rewrite (missing_none _ _ Hall). cbn [bind].
  set (rf := mkDF risk_factor_names _).
  assert (Hnone : all_columns
                    (map (fun j => column j rf)
                         (seq 0 (length (columns rf)))) = None).
  { destruct (In_nth _ _ ""%string Hn) as [j [Hj Hnj]].
    apply all_columns_nan with (c := column j rf).
    - apply in_map_iff. exists j. split; [reflexivity|].
      apply in_seq. unfold rf. cbn [columns]. lia.
    - apply all_values_nan. unfold column, rf. cbn [rows].
      rewrite map_map. apply in_map_iff. exists r. split; auto.
      cbn [snd]. rewrite nth_map_names by exact Hj.
      now rewrite Hnj, Hi. }
  unfold to_numpy. rewrite Hnone. reflexivity.
Qed.

End Refusals.

(** *** Runs that succeed *)

Lemma all_values_total (cs : list (cell R)) :
  (forall c, In c cs -> c <> None) ->
  exists xs, all_values cs = Some xs /\ length xs = length cs.
Proof.
  induction cs as [|c cs IH]; intros H.
  - now exists [].
  - destruct IH as [xs [E L]]; [intros x Hx; apply H; now right|].
    destruct c as [v|]; [|elim (H None); [now left|reflexivity]].
    exists (v :: xs). simpl. rewrite E. simpl. now rewrite L.
Qed.

Lemma index_combine (rs : list (row R)) :
  forall (vs : list R) (h : cell R -> list (cell R) -> list (cell R)),
    length vs = length rs ->
    map fst (map (fun rv : row R * R =>
                    (fst (fst rv), h (Some (snd rv)) (snd (fst rv))))
                 (combine rs vs))
    = map fst rs.
Proof.
  induction rs as [|r rs IH]; intros [|v vs] h Hl; simpl in *;
    try discriminate; auto.
  f_equal. apply IH. lia.
Qed.

Lemma assign_array_index (df df' : DataFrame R) (key : string)
      (vs : list R) :
  assign_array df key vs = inr df' -> index df' = index df.
Proof.
  unfold assign_array.
  destruct (Nat.eqb_spec (length vs) (length (rows df))) as [Hl|];
    [|discriminate].
  intros [= <-]. unfold index. cbn [rows].
  destruct (index_of key (columns df)) as [j|].
  - apply (index_combine (rows df) vs (fun c r => set_nth j c r) Hl).
  - apply (index_combine (rows df) vs (fun c r => r ++ [c]) Hl).
Qed.

Lemma build_sri_assign (pca : matrix -> PCAResult) (df : DataFrame R)
      (nb : Notebook) :
  build_sri pca df = inr nb ->
  assign_array df "SRI" (sri_scaled nb) = inr (df_out nb).
Proof.
  unfold build_sri, bind.
  destruct (getitem df risk_factor_names) as [e|rf]; [discriminate|].
  destruct (to_numpy rf) as [e|X]; [discriminate|].
  destruct (StandardScaler_fit_transform X) as [e|Z]; [discriminate|].
  destruct (assign_array _ _ _) as [e|df'] eqn:E; [discriminate|].
  intros [= <-]. exact E.
Qed.

(** X16.  When the frame has the three columns, at least one row, a
    value in every selected cell, and the decomposition returns one
    score per row, the construction runs to the end: it yields one index
    value per row and a frame on the same dates. *)
Theorem build_sri_succeeds (pca : matrix -> PCAResult)
        (df : DataFrame R) :
  (forall n, In n risk_factor_names -> In n (columns df)) ->
  rows df <> [] ->
  (forall r n i, In r (rows df) -> In n risk_factor_names ->
                 index_of n (columns df) = Some i ->
                 nth i (snd r) None <> None) ->
  (forall Z, length (transformed (pca Z)) = n_samples Z) ->
  exists nb,
    build_sri pca df = inr nb
    /\ length (sri_scaled nb) = length (rows df)
    /\ index (df_out nb) = index df.
Proof.
  intros Hall Hne Hval Hpca.
  assert (Hcol : forall n, In n risk_factor_names ->
            exists xs,
              all_values
                (map (fun r : row R =>
                        match index_of n (columns df) with
                        | Some j => nth j (snd r) None
                        | None => None
                        end) (rows df)) = Some xs
              /\ length xs = length (rows df)).
  { intros n Hn.
    destruct (all_values_total
                (map (fun r : row R =>
                        match index_of n (columns df) with
                        | Some j => nth j (snd r) None
                        | None => None
                        end) (rows df))) as [xs [E L]].
    - intros c Hc. apply in_map_iff in Hc as [r [<- Hr]].
      destruct (CleaningFacts.index_of_In n (columns df)) as [Hi _].
      specialize (Hi (Hall n Hn)).
      destruct (index_of n (columns df)) as [i|] eqn:Ei; [|congruence].
      now apply (Hval r n i).
    - exists xs. split; auto. now rewrite L, length_map. }
  destruct (Hcol "VIX"%string) as [x0 [E0 L0]]; [cbn; tauto|].
  destruct (Hcol "MOVE"%string) as [x1 [E1 L1]]; [cbn; tauto|].
  destruct (Hcol "BAMLC0A0CMEY"%string) as [x2 [E2 L2]]; [cbn; tauto|].
  set (rf := mkDF risk_factor_names
               (map (fun r : row R =>
                       (fst r,
                        map (fun n =>
                               match index_of n (columns df) with
                               | Some j => nth j (snd r) None
                               | None => None
                               end) risk_factor_names))
                    (rows df))).
  assert (Hnum : to_numpy rf = inr [x0; x1; x2]).
  { unfold to_numpy, column, rf, risk_factor_names.
    cbn [columns rows length seq map].
    rewrite !map_map. cbn [snd map nth all_columns].
    now rewrite E0, E1, E2. }
  assert (Hn0 : length x0 <> O).
  { rewrite L0. destruct (rows df); [congruence|discriminate]. }
  assert (Hrun : exists df',
            build_sri pca df
            = inr (mkNotebook df'
                     (transformed (pca (map standardize [x0; x1; x2])))
                     (combine risk_factor_names
                        (components_0
                           (pca (map standardize [x0; x1; x2]))))
                     (MinMaxScaler_fit_transform 0 100
                        (transformed
                           (pca (map standardize [x0; x1; x2])))))).
  { apply (@build_sri_runs pca df rf [x0; x1; x2]
             (map standardize [x0; x1; x2])).
    - unfold getitem. rewrite (missing_none _ _ Hall). reflexivity.
    - exact Hnum.
    - unfold StandardScaler_fit_transform, n_samples. cbn [hd].
      destruct (Nat.eqb_spec (length x0) 0); [contradiction|reflexivity].
    - rewrite Hpca. unfold n_samples, standardize. cbn [map hd].
      now rewrite length_map. }
  destruct Hrun as [df' Hrun]. eexists. split; [exact Hrun|].
  cbn [sri_scaled df_out]. split.
  - unfold MinMaxScaler_fit_transform. rewrite length_map, Hpca.
    unfold n_samples, standardize. cbn [map hd]. now rewrite length_map.
  - apply build_sri_assign in Hrun. cbn [sri_scaled df_out] in Hrun.
    exact (@assign_array_index _ _ _ _ Hrun).
Qed.

(** *** The frame the construction leaves *)

Lemma lookup_combine (h : cell R -> list (cell R) -> list (cell R))
      (t : Z) (rs : list (row R)) :
  forall vs : list R,
    length vs = length rs ->
    match lookup_row t rs with
    | Some r =>
        exists v,
          lookup_row t
            (map (fun rv : row R * R =>
                    (fst (fst rv), h (Some (snd rv)) (snd (fst rv))))
                 (combine rs vs))
          = Some (h (Some v) r)
    | None =>
        lookup_row t
          (map (fun rv : row R * R =>
                  (fst (fst rv), h (Some (snd rv)) (snd (fst rv))))
               (combine rs vs))
        = None
    end.
Proof.
  unfold lookup_row.
  induction rs as [|r rs IH]; intros [|v vs] Hl; simpl in *;
    try discriminate; auto.
  destruct (Z.eqb (fst r) t); simpl.
  - now exists v.
  - apply IH. lia.
Qed.

(** X17.  The frame left by a run on a frame without an [SRI] column:
    the same dates, the same columns followed by [SRI], every original
    cell unchanged, and the rescaled index under [SRI], row by row. *)
Theorem build_sri_preserves_frame (pca : matrix -> PCAResult)
        (df : DataFrame R) (nb : Notebook) :
  build_sri pca df = inr nb ->
  rectangular df ->
  ~ In "SRI"%string (columns df) ->
  columns (df_out nb) = columns df ++ ["SRI"%string]
  /\ index (df_out nb) = index df
  /\ (forall t c, In c (columns df) ->
        at_ (df_out nb) t c = at_ df t c)
  /\ column (length (columns df)) (df_out nb)
     = map Some (sri_scaled nb).
Proof.
  intros Hrun Hrect Hno.
  destruct (@build_sri_column pca df nb Hrun Hrect Hno) as [Hc Hs].
  pose proof (@build_sri_assign pca df nb Hrun) as Ha.
  split; [exact Hc|]. split; [exact (@assign_array_index _ _ _ _ Ha)|].
  split; [|exact Hs].
  intros t c Hin. unfold at_ at 1. rewrite Hc.
  unfold assign_array in Ha.
  destruct (Nat.eqb_spec (length (sri_scaled nb)) (length (rows df)))
    as [Hl|]; [|discriminate].
  assert (Hi : index_of "SRI" (columns df) = None).
  { destruct (CleaningFacts.index_of_In "SRI" (columns df)) as [_ H].
    destruct (index_of "SRI" (columns df)); auto.
    elim Hno. apply H. discriminate. }
  rewrite Hi in Ha. injection Ha as Ha. rewrite <- Ha. cbn [rows].
  rewrite CleaningFacts.index_of_app.
  destruct (CleaningFacts.index_of_In c (columns df)) as [Hc1 _].
  specialize (Hc1 Hin).
  destruct (index_of c (columns df)) as [i|] eqn:Ei; [|congruence].
  pose proof (lookup_combine (fun x r => r ++ [x]) t (rows df)
                (sri_scaled nb) Hl) as Hlk.
  cbn beta in Hlk. unfold at_. rewrite Ei.
  destruct (lookup_row t (rows df)) as [r|] eqn:Er.
  - destruct Hlk as [v Hlk].
    match goal with
    | |- match ?L with _ => _ end = _ =>
        replace L with (Some (r ++ [Some v])) by (symmetry; exact Hlk)
    end.
    apply app_nth1.
    apply CleaningFacts.lookup_row_In in Er.
    unfold rectangular in Hrect. rewrite Forall_forall in Hrect.
    specialize (Hrect _ Er). cbn [snd] in Hrect. rewrite Hrect.
    now apply CleaningFacts.index_of_bound with (c := c).
  - match goal with
    | |- match ?L with _ => _ end = _ =>
        replace L with (@None (list (cell R))) by (symmetry; exact Hlk)
    end.
    reflexivity.
Qed.

Lemma set_nth_same (c : cell R) (r : list (cell R)) :
  forall j, (j < length r)%nat -> nth j (set_nth j c r) None = c.
Proof.
  induction r as [|x r IH]; intros [|j] Hj; simpl in *; try lia; auto.
  apply IH. lia.
Qed.

Lemma combine_rows (f : row R -> R -> cell R) (g : R -> cell R)
      (rs : list (row R)) :
  forall vs,
    length vs = length rs ->
    (forall r v, In r rs -> f r v = g v) ->
    map (fun rv : row R * R => f (fst rv) (snd rv)) (combine rs vs)
    = map g vs.
Proof.
  induction rs as [|r rs IH]; intros [|v vs] Hl Hf; simpl in *;
    try discriminate; auto.
  rewrite (Hf r v) by now left. f_equal. apply IH; auto.
Qed.

(** X18.  A run on a frame that already has an [SRI] column, as when the
    cell is run again on its own result: the column list is unchanged,
    no second [SRI] column is added, and the column holds the new
    index. *)
Theorem build_sri_overwrites (pca : matrix -> PCAResult)
        (df : DataFrame R) (nb : Notebook) (j : nat) :
  build_sri pca df = inr nb ->
  rectangular df ->
  index_of "SRI" (columns df) = Some j ->
  columns (df_out nb) = columns df
  /\ index (df_out nb) = index df
  /\ column j (df_out nb) = map Some (sri_scaled nb).
Proof.
  intros Hrun Hrect Hj.
  pose proof (@build_sri_assign pca df nb Hrun) as Ha.
  split; [|split; [exact (@assign_array_index _ _ _ _ Ha)|]];
    unfold assign_array in Ha;
    destruct (Nat.eqb_spec (length (sri_scaled nb)) (length (rows df)))
      as [Hl|]; try discriminate;
    rewrite Hj in Ha; injection Ha as Ha; rewrite <- Ha;
    [reflexivity|].
  unfold column. cbn [rows]. rewrite map_map. cbn [fst snd].
  apply (combine_rows
           (fun r v => nth j (set_nth j (Some v) (snd r)) None) Some);
    auto.
  intros r v Hr. apply set_nth_same.
  unfold rectangular in Hrect. rewrite Forall_forall in Hrect.
  rewrite (Hrect r Hr).
  now apply CleaningFacts.index_of_bound with (c := "SRI"%string).
Qed.

(** *** Rescaling *)

Lemma rescale_degenerate (lo hi : R) (xs : list R) :
  data_min xs = data_max xs ->
  MinMaxScaler_fit_transform lo hi xs = map (fun _ => lo) xs.
Proof.
  intros E. unfold MinMaxScaler_fit_transform. rewrite E.
  replace (data_max xs - data_max xs) with 0 by ring.
  unfold handle_zeros_in_scale.
  destruct (Req_EM_T 0 0) as [_|N]; [|now elim N].
  apply map_ext_in. intros x Hx.
  assert (x = data_max xs).
  { pose proof (data_min_le xs x Hx). pose proof (data_max_ge xs x Hx).
    lra. }
  subst x. field.
Qed.

Lemma fold_min_opp (xs : list R) :
  forall x, fold_left Rmin (map Ropp xs) (- x) = - fold_left Rmax xs x.
Proof.
  induction xs as [|y xs IH]; intros x; simpl; auto.
  rewrite <- Ropp_Rmax. apply IH.
Qed.

Lemma data_min_opp (xs : list R) :
  data_min (map Ropp xs) = - data_max xs.
Proof.
  destruct xs as [|x xs]; simpl; [lra|]. apply fold_min_opp.
Qed.

Lemma data_min_le_max (xs : list R) : data_min xs <= data_max xs.
Proof.
  destruct xs as [|x xs]; [simpl; lra|].
  pose proof (data_min_le (x :: xs) x (or_introl eq_refl)).
  pose proof (data_max_ge (x :: xs) x (or_introl eq_refl)). lra.
Qed.

(** X20.  A factor that does not vary over the sample: the run does not
    fail and does not divide by zero; every week gets the index 0. *)
Theorem build_sri_constant_factor (pca : matrix -> PCAResult)
        (df : DataFrame R) (nb : Notebook) :
  build_sri pca df = inr nb ->
  data_min (sri_raw nb) = data_max (sri_raw nb) ->
  sri_scaled nb = map (fun _ => 0) (sri_raw nb).
Proof.
  intros Hrun Hc.
  destruct (@build_sri_keeps_component pca df nb Hrun)
    as [rf [X [Z [_ [_ [_ [Hraw [_ Hs]]]]]]]].
  rewrite Hs, <- Hraw. now apply rescale_degenerate.
Qed.

(** *** The statements above on the sample inputs *)

Lemma wide_has_columns :
  forall n, In n risk_factor_names -> In n (columns Samples.wide_input).
Proof. intros n [<-|[<-|[<-|[]]]]; cbn; tauto. Qed.

Lemma getitem_selects_witness :
  (forall n, In n risk_factor_names -> In n (columns Samples.wide_input))
  /\ exists rf,
       getitem Samples.wide_input risk_factor_names = inr rf
       /\ columns rf = risk_factor_names
       /\ index rf = index Samples.wide_input
       /\ forall t n, In n risk_factor_names ->
                      at_ rf t n = at_ Samples.wide_input t n.
Proof.
  split; [exact wide_has_columns|].
  exact (@getitem_selects Samples.wide_input risk_factor_names
           wide_has_columns).
Defined.

(** The selection on the wide sample: three columns, reordered. *)
Example getitem_wide :
  getitem Samples.wide_input risk_factor_names
  = inr (mkDF ["VIX"; "MOVE"; "BAMLC0A0CMEY"]%string
           [(10963%Z, [Some 19; Some 103; Some 8]);
            (10970%Z, [Some 20; Some 98; Some 3])]).
Proof. reflexivity. Qed.

Lemma vix_is_selected : In "VIX"%string risk_factor_names.
Proof. now left. Qed.

Lemma yf_sample_no_vix : ~ In "VIX"%string (columns Samples.yf_sample).
Proof. cbn. intuition discriminate. Qed.

Lemma getitem_key_error_witness :
  In "VIX"%string risk_factor_names
  /\ ~ In "VIX"%string (columns Samples.yf_sample)
  /\ exists missing,
       getitem Samples.yf_sample risk_factor_names
       = inl (KeyError missing)
       /\ forall m, In m missing <->
                    In m risk_factor_names
                    /\ ~ In m (columns Samples.yf_sample).
Proof.
  split; [exact vix_is_selected|]. split; [exact yf_sample_no_vix|].
  exact (@getitem_key_error Samples.yf_sample risk_factor_names "VIX"
           vix_is_selected yf_sample_no_vix).
Defined.

Lemma selected_in (df : DataFrame R) :
  columns df = risk_factor_names ->
  forall n, In n risk_factor_names -> In n (columns df).
Proof. intros -> n Hn. exact Hn. Qed.

Lemma build_sri_no_rows_witness :
  (forall n, In n risk_factor_names ->
             In n (columns Samples.no_rows_input))
  /\ rows Samples.no_rows_input = []
  /\ build_sri Samples.sri_pca Samples.no_rows_input
     = inl (ValueError "Found array with 0 sample(s)").
Proof.
  assert (Hc : forall n, In n risk_factor_names ->
                         In n (columns Samples.no_rows_input))
    by exact (@selected_in Samples.no_rows_input eq_refl).
  split; [exact Hc|]. split; [reflexivity|].
  exact (@build_sri_no_rows Samples.sri_pca Samples.no_rows_input Hc
           eq_refl).
Defined.

Lemma nan_row_in :
  In (10970%Z, [Some 20; None; Some 3]) (rows Samples.nan_input).
Proof. right. now left. Qed.

Lemma move_is_selected : In "MOVE"%string risk_factor_names.
Proof. right. now left. Qed.

Lemma build_sri_nan_witness :
  let r : row R := (10970%Z, [Some 20; None; Some 3]) in
  (forall m, In m risk_factor_names -> In m (columns Samples.nan_input))
  /\ In r (rows Samples.nan_input)
  /\ In "MOVE"%string risk_factor_names
  /\ index_of "MOVE" (columns Samples.nan_input) = Some 1%nat
  /\ nth 1 (snd r) None = None
  /\ build_sri Samples.sri_pca Samples.nan_input
     = inl (ValueError "Input X contains NaN.").
Proof.
  intros r.
  assert (Hc : forall n, In n risk_factor_names ->
                         In n (columns Samples.nan_input))
    by exact (@selected_in Samples.nan_input eq_refl).
  split; [exact Hc|]. split; [exact nan_row_in|].
  split; [exact move_is_selected|]. split; [reflexivity|].
  split; [reflexivity|].
  exact (@build_sri_nan Samples.sri_pca Samples.nan_input r "MOVE" 1%nat
           Hc nan_row_in move_is_selected eq_refl eq_refl).
Defined.

Lemma sri_pca_length (Z : matrix) :
  length (transformed (Samples.sri_pca Z)) = n_samples Z.
Proof.
  unfold Samples.sri_pca, project. cbn [transformed].
  rewrite length_map, length_seq. unfold n_samples, center.
  destruct Z as [|xs Z]; [reflexivity|]. cbn [map hd].
  apply length_map.
Qed.

Lemma sri_input_rows : rows Samples.sri_input <> [].
Proof. discriminate. Qed.

Lemma sri_input_values :
  forall r n i, In r (rows Samples.sri_input) ->
                In n risk_factor_names ->
                index_of n (columns Samples.sri_input) = Some i ->
                nth i (snd r) None <> None.
Proof.
  intros r n i Hr Hn Hi. simpl in Hr.
  destruct Hn as [<-|[<-|[<-|[]]]]; cbn in Hi; injection Hi as <-;
    destruct Hr as [<-|[<-|[<-|[<-|[]]]]]; discriminate.
Qed.

Lemma build_sri_succeeds_witness :
  (forall n, In n risk_factor_names -> In n (columns Samples.sri_input))
  /\ rows Samples.sri_input <> []
  /\ (forall r n i, In r (rows Samples.sri_input) ->
                    In n risk_factor_names ->
                    index_of n (columns Samples.sri_input) = Some i ->
                    nth i (snd r) None <> None)
  /\ (forall Z, length (transformed (Samples.sri_pca Z)) = n_samples Z)
  /\ exists nb,
       build_sri Samples.sri_pca Samples.sri_input = inr nb
       /\ length (sri_scaled nb) = length (rows Samples.sri_input)
       /\ index (df_out nb) = index Samples.sri_input.
Proof.
  assert (Hc : forall n, In n risk_factor_names ->
                         In n (columns Samples.sri_input))
    by exact (@selected_in Samples.sri_input eq_refl).
  split; [exact Hc|]. split; [exact sri_input_rows|].
  split; [exact sri_input_values|]. split; [exact sri_pca_length|].
  exact (@build_sri_succeeds Samples.sri_pca Samples.sri_input Hc
           sri_input_rows sri_input_values sri_pca_length).
Defined.

(** The runs used below. *)
Lemma sri_sample_run :
  exists df',
    build_sri Samples.sri_pca Samples.sri_input
    = inr (mkNotebook df'
             (transformed
                (Samples.sri_pca (map standardize Samples.sri_matrix)))
             (combine (columns Samples.sri_input)
                (components_0
                   (Samples.sri_pca
                      (map standardize Samples.sri_matrix))))
             (MinMaxScaler_fit_transform 0 100
                (transformed
                   (Samples.sri_pca
                      (map standardize Samples.sri_matrix))))).
Proof.
  apply (@build_sri_runs Samples.sri_pca Samples.sri_input
           Samples.sri_input Samples.sri_matrix
           (map standardize Samples.sri_matrix)
           sri_getitem sri_to_numpy sri_scaler).
  rewrite sri_pca_length. reflexivity.
Qed.

Lemma sri_input_rectangular : rectangular Samples.sri_input.
Proof. repeat constructor. Qed.

Lemma sri_input_no_sri : ~ In "SRI"%string (columns Samples.sri_input).
Proof. cbn. intuition discriminate. Qed.

Lemma build_sri_preserves_frame_witness :
  exists nb,
    build_sri Samples.sri_pca Samples.sri_input = inr nb
    /\ rectangular Samples.sri_input
    /\ ~ In "SRI"%string (columns Samples.sri_input)
    /\ columns (df_out nb)
       = columns Samples.sri_input ++ ["SRI"%string]
    /\ index (df_out nb) = index Samples.sri_input
    /\ (forall t c, In c (columns Samples.sri_input) ->
          at_ (df_out nb) t c = at_ Samples.sri_input t c)
    /\ column (length (columns Samples.sri_input)) (df_out nb)
       = map Some (sri_scaled nb).
Proof.
  destruct sri_sample_run as [df' Hrun]. eexists.
  split; [exact Hrun|]. split; [exact sri_input_rectangular|].
  split; [exact sri_input_no_sri|].
  exact (@build_sri_preserves_frame Samples.sri_pca Samples.sri_input _
           Hrun sri_input_rectangular sri_input_no_sri).
Defined.

Lemma rerun_sample_run :
  exists df',
    build_sri Samples.sri_pca Samples.rerun_input
    = inr (mkNotebook df'
             (transformed
                (Samples.sri_pca (map standardize Samples.sri_matrix)))
             (combine (columns Samples.sri_input)
                (components_0
                   (Samples.sri_pca
                      (map standardize Samples.sri_matrix))))
             (MinMaxScaler_fit_transform 0 100
                (transformed
                   (Samples.sri_pca
                      (map standardize Samples.sri_matrix))))).
Proof.
  apply (@build_sri_runs Samples.sri_pca Samples.rerun_input
           Samples.sri_input Samples.sri_matrix
           (map standardize Samples.sri_matrix)
           eq_refl sri_to_numpy sri_scaler).
  rewrite sri_pca_length. reflexivity.
Qed.

Lemma rerun_input_rectangular : rectangular Samples.rerun_input.
Proof. repeat constructor. Qed.

Lemma build_sri_overwrites_witness :
  exists nb,
    build_sri Samples.sri_pca Samples.rerun_input = inr nb
    /\ rectangular Samples.rerun_input
    /\ index_of "SRI" (columns Samples.rerun_input) = Some 3%nat
    /\ columns (df_out nb) = columns Samples.rerun_input
    /\ index (df_out nb) = index Samples.rerun_input
    /\ column 3 (df_out nb) = map Some (sri_scaled nb).
Proof.
  destruct rerun_sample_run as [df' Hrun]. eexists.
  split; [exact Hrun|]. split; [exact rerun_input_rectangular|].
  split; [reflexivity|].
  exact (@build_sri_overwrites Samples.sri_pca Samples.rerun_input _
           3%nat Hrun rerun_input_rectangular eq_refl).
Defined.

Lemma flat_sample_run :
  exists df',
    build_sri Samples.flat_pca Samples.flat_input
    = inr (mkNotebook df' [0; 0]
             (combine (columns Samples.flat_input) [1; 0; 0])
             (MinMaxScaler_fit_transform 0 100 [0; 0])).
Proof.
  exact (@build_sri_runs Samples.flat_pca Samples.flat_input
           Samples.flat_input [[20; 20]; [100; 100]; [5; 5]]
           (map standardize [[20; 20]; [100; 100]; [5; 5]])
           eq_refl eq_refl eq_refl eq_refl).
Qed.

Lemma flat_scores : data_min [0; 0] = data_max [0; 0].
Proof.
  unfold data_min, data_max. cbn [fold_left].
  rewrite Rmin_left, Rmax_left by lra. reflexivity.
Qed.

Lemma build_sri_constant_factor_witness :
  exists nb,
    build_sri Samples.flat_pca Samples.flat_input = inr nb
    /\ data_min (sri_raw nb) = data_max (sri_raw nb)
    /\ sri_scaled nb = map (fun _ => 0) (sri_raw nb).
Proof.
  destruct flat_sample_run as [df' Hrun]. eexists.
  split; [exact Hrun|]. split; [exact flat_scores|].
  exact (@build_sri_constant_factor Samples.flat_pca Samples.flat_input _
           Hrun flat_scores).
Defined.

Lemma neg_pca_opposite :
  forall Z, transformed (Samples.neg_pca Z)
            = map Ropp (transformed (Samples.sri_pca Z)).
Proof. reflexivity. Qed.

Lemma neg_sample_run :
  exists df',
    build_sri Samples.neg_pca Samples.sri_input
    = inr (mkNotebook df'
             (transformed
                (Samples.neg_pca (map standardize Samples.sri_matrix)))
             (combine (columns Samples.sri_input)
                (components_0
                   (Samples.neg_pca
                      (map standardize Samples.sri_matrix))))
             (MinMaxScaler_fit_transform 0 100
                (transformed
                   (Samples.neg_pca
                      (map standardize Samples.sri_matrix))))).
Proof.
  apply (@build_sri_runs Samples.neg_pca Samples.sri_input
           Samples.sri_input Samples.sri_matrix
           (map standardize Samples.sri_matrix)
           sri_getitem sri_to_numpy sri_scaler).
  rewrite neg_pca_opposite, length_map, sri_pca_length. reflexivity.
Qed.

End IndexLaws.

(** ** Facts about the rescaling in the arithmetic of the machine *)

Module MachineFacts.

Import Frame Index IndexFacts IndexLaws.

Open Scope R_scope.

Lemma data_min_rounded (rnd : R -> R) (xs : list R) :
  Machine.data_min (Machine.rounded rnd) xs = data_min xs.
Proof. destruct xs; reflexivity. Qed.

Lemma data_max_rounded (rnd : R -> R) (xs : list R) :
  Machine.data_max (Machine.rounded rnd) xs = data_max xs.
Proof. destruct xs; reflexivity. Qed.

(** *** Rounding errors over the reals *)







(** *** The rounded reading and the exact one *)

Lemma handle_zeros_rounded (rnd : R -> R) (s : R) :
  Machine.handle_zeros_in_scale (Machine.rounded rnd) s
  = handle_zeros_in_scale s.
Proof.
  unfold Machine.handle_zeros_in_scale, handle_zeros_in_scale.
  cbn [Machine.is_zero Machine.rounded Machine.of_nat].
  destruct (Req_EM_T s 0); reflexivity.
Qed.

(** *** The rescaling under a monotone rounding *)

Section Rounded.

Variable rnd : R -> R.
Hypothesis rnd_mono : forall a b, a <= b -> rnd a <= rnd b.
Hypothesis rnd_zero : rnd 0 = 0.

Variable xs : list R.

Let lo := data_min xs.
Let hi := data_max xs.

(** The fitted [scale_] and [min_]. *)
Let scale_ :=
  rnd (rnd (100 - 0) / handle_zeros_in_scale (rnd (hi - lo))).
Let min_ := rnd (0 - rnd (lo * scale_)).
Let step (x : R) : R := rnd (rnd (x * scale_) + min_).

Lemma rounded_steps :
  Machine.MinMaxScaler_fit_transform (Machine.rounded rnd) 0 100 xs
  = map step xs.
Proof.
  unfold Machine.MinMaxScaler_fit_transform.
  rewrite data_min_rounded, data_max_rounded.
  cbn [Machine.add Machine.subtract Machine.multiply Machine.divide
       Machine.rounded].
  rewrite handle_zeros_rounded. reflexivity.
Qed.

Lemma rnd_nonneg (x : R) : 0 <= x -> 0 <= rnd x.
Proof. intros H. rewrite <- rnd_zero. now apply rnd_mono. Qed.

Lemma range_nonneg : 0 <= rnd (hi - lo).
Proof.
  apply rnd_nonneg. pose proof (data_min_le_max xs).
  unfold hi, lo. lra.
Qed.

Lemma divisor_pos : 0 < handle_zeros_in_scale (rnd (hi - lo)).
Proof.
  unfold handle_zeros_in_scale. pose proof range_nonneg as H.
  destruct (Req_EM_T (rnd (hi - lo)) 0); lra.
Qed.

Lemma scale_nonneg : 0 <= scale_.
Proof.
  unfold scale_. apply rnd_nonneg. unfold Rdiv.
  apply Rmult_le_pos.
  - apply rnd_nonneg. lra.
  - apply Rlt_le, Rinv_0_lt_compat, divisor_pos.
Qed.

Lemma step_mono (a b : R) : a <= b -> step a <= step b.
Proof.
  intros Hab. unfold step. apply rnd_mono.
  apply Rplus_le_compat_r. apply rnd_mono.
  apply Rmult_le_compat_r; [exact scale_nonneg | exact Hab].
Qed.

Lemma step_strict (a b : R) : step a < step b -> a < b.
Proof.
  intros H. destruct (Rlt_le_dec a b) as [Hlt|Hle]; [exact Hlt|].
  pose proof (@step_mono b a Hle). lra.
Qed.

Hypothesis rnd_opp : forall a, rnd (- rnd a) = - rnd a.

Lemma step_lo : step lo = 0.
Proof.
  unfold step, min_. rewrite Rminus_0_l, rnd_opp.
  rewrite Rplus_opp_r. exact rnd_zero.
Qed.


Let sri := Machine.MinMaxScaler_fit_transform (Machine.rounded rnd) 0 100 xs.

Lemma rounded_nth (i : nat) :
  (i < length xs)%nat -> nth i sri 0 = step (nth i xs 0).
Proof. intros Hi. unfold sri. rewrite rounded_steps. now apply nth_map_R. Qed.





Lemma rounded_order (i j : nat) :
  (i < length xs)%nat -> (j < length xs)%nat ->
  nth i xs 0 <= nth j xs 0 -> nth i sri 0 <= nth j sri 0.
Proof.
  intros Hi Hj H. rewrite !rounded_nth by assumption. now apply step_mono.
Qed.

Lemma rounded_order_strict (i j : nat) :
  (i < length xs)%nat -> (j < length xs)%nat ->
  nth i sri 0 < nth j sri 0 -> nth i xs 0 < nth j xs 0.
Proof.
  intros Hi Hj. rewrite !rounded_nth by assumption. apply step_strict.
Qed.

Lemma rounded_at_min (i : nat) :
  (i < length xs)%nat -> nth i xs 0 = lo -> nth i sri 0 = 0.
Proof. intros Hi E. rewrite rounded_nth, E by assumption. exact step_lo. Qed.



End Rounded.

Lemma rounded_exact (rnd : R -> R) (xs : list R) :
  (forall x, rnd x = x) ->
  Machine.MinMaxScaler_fit_transform (Machine.rounded rnd) 0 100 xs
  = MinMaxScaler_fit_transform 0 100 xs.
Proof.
  intros Hid. rewrite rounded_steps. unfold MinMaxScaler_fit_transform.
  apply map_ext. intros x. rewrite !Hid. reflexivity.
Qed.




(** C10.  Under a monotone rounding that keeps 0 the rescaling never
    reverses two weeks: a week whose raw factor is at most another's
    gets an index that is at most the other's, equal raw factors get
    equal indexes, and a strictly smaller index comes from a strictly
    smaller raw factor.  The converse needs exact arithmetic: without
    rounding, and for a factor that is not constant, the two orders are
    the same. *)
Theorem rescale_never_reverses (rnd : R -> R) (xs : list R) (i j : nat) :
  (forall a b, a <= b -> rnd a <= rnd b) ->
  rnd 0 = 0 ->
  (i < length xs)%nat -> (j < length xs)%nat ->
  let sri :=
    Machine.MinMaxScaler_fit_transform (Machine.rounded rnd) 0 100 xs in
  (nth i xs 0 <= nth j xs 0 -> nth i sri 0 <= nth j sri 0)
  /\ (nth i xs 0 = nth j xs 0 -> nth i sri 0 = nth j sri 0)
  /\ (nth i sri 0 < nth j sri 0 -> nth i xs 0 < nth j xs 0)
  /\ ((forall x, rnd x = x) -> data_min xs < data_max xs ->
      (nth i sri 0 <= nth j sri 0 <-> nth i xs 0 <= nth j xs 0)).
Proof.
  intros Hm H0 Hi Hj sri. split; [|split; [|split]].
  - exact (@rounded_order rnd Hm H0 xs i j Hi Hj).
  - intros E. unfold sri. rewrite !rounded_nth by assumption.
    now rewrite E.
  - exact (@rounded_order_strict rnd Hm H0 xs i j Hi Hj).
  - intros Hid Hr. unfold sri. rewrite (@rounded_exact rnd xs Hid).
    exact (proj1 (@rescale_exact_order xs i j Hr Hi Hj)).
Qed.

(** X21.  The index depends on the sign the decomposition happens to
    return.  With the opposite sign of the scores the raw factor is
    negated; rescaled, it ranks the weeks in the reverse order, and the
    week whose factor was the largest gets the index 0. *)
Theorem build_sri_sign_reverses (rnd : R -> R)
        (pca1 pca2 : matrix -> PCAResult) (df : DataFrame R)
        (nb1 nb2 : Notebook) (i j : nat) :
  (forall a b, a <= b -> rnd a <= rnd b) ->
  rnd 0 = 0 ->
  (forall a, rnd (- rnd a) = - rnd a) ->
  (forall Z, transformed (pca2 Z) = map Ropp (transformed (pca1 Z))) ->
  build_sri pca1 df = inr nb1 ->
  build_sri pca2 df = inr nb2 ->
  (i < length (sri_raw nb1))%nat -> (j < length (sri_raw nb1))%nat ->
  let index2 :=
    Machine.MinMaxScaler_fit_transform (Machine.rounded rnd) 0 100
      (sri_raw nb2) in
  sri_raw nb2 = map Ropp (sri_raw nb1)
  /\ (nth i (sri_raw nb1) 0 <= nth j (sri_raw nb1) 0 ->
      nth j index2 0 <= nth i index2 0)
  /\ (nth i (sri_raw nb1) 0 = data_max (sri_raw nb1) ->
      nth i index2 0 = 0).
Proof.
  intros Hm H0 Hn Hopp H1 H2 Hi Hj index2.
  destruct (@build_sri_keeps_component pca1 df nb1 H1)
    as [rf1 [X1 [Z1 [Hg1 [Hx1 [Hz1 [Hraw1 _]]]]]]].
  destruct (@build_sri_keeps_component pca2 df nb2 H2)
    as [rf2 [X2 [Z2 [Hg2 [Hx2 [Hz2 [Hraw2 _]]]]]]].
  assert (rf2 = rf1) by congruence. subst rf2.
  assert (X2 = X1) by congruence. subst X2.
  assert (Z2 = Z1) by congruence. subst Z2.
  rewrite Hopp in Hraw2. rewrite <- Hraw1 in Hraw2.
  split; [exact Hraw2|]. unfold index2. rewrite Hraw2.
  assert (Hi' : (i < length (map Ropp (sri_raw nb1)))%nat)
    by now rewrite length_map.
  assert (Hj' : (j < length (map Ropp (sri_raw nb1)))%nat)
    by now rewrite length_map.
  split.
  - intros Hle. apply (@rounded_order rnd Hm H0 _ j i Hj' Hi').
    rewrite !nth_map_R by assumption. lra.
  - intros Hmax. apply (@rounded_at_min rnd H0 _ Hn i Hi').
    rewrite nth_map_R by assumption.
    now rewrite Hmax, data_min_opp.
Qed.

(** *** The statements above on the sample inputs *)

Lemma round_down_mono :
  forall a b, a <= b -> Samples.round_down a <= Samples.round_down b.
Proof. intros a b H. apply IZR_le. now apply Zfloor_le. Qed.

Lemma round_down_zero : Samples.round_down 0 = 0.
Proof. unfold Samples.round_down. now rewrite ZfloorZ. Qed.

Lemma round_down_opp :
  forall a, Samples.round_down (- Samples.round_down a)
            = - Samples.round_down a.
Proof.
  intros a. unfold Samples.round_down. now rewrite ZfloorNZ, opp_IZR.
Qed.

Lemma round_down_at (z : Z) (x : R) :
  IZR z <= x < IZR z + 1 -> Samples.round_down x = IZR z.
Proof.
  intros H. unfold Samples.round_down. now rewrite (Zfloor_eq z x H).
Qed.

Lemma thirds_extrema :
  data_min Samples.thirds = 0 /\ data_max Samples.thirds = 3.
Proof.
  unfold data_min, data_max, Samples.thirds. cbn [fold_left]. split.
  - rewrite (Rmin_left 0 3) by lra. apply Rmin_left. lra.
  - rewrite (Rmax_right 0 3) by lra. apply Rmax_left. lra.
Qed.


(** Rounding down, the scale of the sample is 33 and not 100/3: its
    largest value gets 99. *)
Example rescale_thirds_round_down :
  Machine.MinMaxScaler_fit_transform
    (Machine.rounded Samples.round_down) 0 100 Samples.thirds
  = [0; 99; 33].
Proof.
  unfold Machine.MinMaxScaler_fit_transform.
  rewrite data_min_rounded, data_max_rounded.
  destruct thirds_extrema as [-> ->].
  cbn [Machine.add Machine.subtract Machine.multiply Machine.divide
       Machine.rounded].
  rewrite handle_zeros_rounded.
  rewrite (@round_down_at 3 (3 - 0)) by lra.
  rewrite (@round_down_at 100 (100 - 0)) by lra.
  unfold handle_zeros_in_scale.
  destruct (Req_EM_T 3 0) as [E|_]; [lra|].
  rewrite (@round_down_at 33 (100 / 3)) by lra.
  rewrite (@round_down_at 0 (0 * 33)) by lra.
  rewrite (@round_down_at 0 (0 - 0)) by lra.
  unfold Samples.thirds. cbn [map].
  rewrite (@round_down_at 0 (0 * 33)) by lra.
  rewrite (@round_down_at 99 (3 * 33)) by lra.
  rewrite (@round_down_at 33 (1 * 33)) by lra.
  rewrite (@round_down_at 0 (0 + 0)) by lra.
  rewrite (@round_down_at 99 (99 + 0)) by lra.
  rewrite (@round_down_at 33 (33 + 0)) by lra.
  reflexivity.
Qed.


Lemma rescale_never_reverses_witness :
  let xs := Samples.thirds in
  let sri :=
    Machine.MinMaxScaler_fit_transform
      (Machine.rounded Samples.round_down) 0 100 xs in
  (forall a b, a <= b -> Samples.round_down a <= Samples.round_down b)
  /\ Samples.round_down 0 = 0
  /\ (2 < length xs)%nat /\ (1 < length xs)%nat
  /\ (nth 2 xs 0 <= nth 1 xs 0 -> nth 2 sri 0 <= nth 1 sri 0)
  /\ (nth 2 sri 0 < nth 1 sri 0 -> nth 2 xs 0 < nth 1 xs 0).
Proof.
  intros xs sri.
  assert (H2 : (2 < length Samples.thirds)%nat) by (simpl; lia).
  assert (H1 : (1 < length Samples.thirds)%nat) by (simpl; lia).
  split; [exact round_down_mono|]. split; [exact round_down_zero|].
  split; [exact H2|]. split; [exact H1|].
  destruct (@rescale_never_reverses Samples.round_down Samples.thirds
              2%nat 1%nat round_down_mono round_down_zero H2 H1)
    as [Hle [_ [Hlt _]]].
  split; [exact Hle|exact Hlt].
Defined.

Lemma sri_scores_length :
  length (transformed
            (Samples.sri_pca (map standardize Samples.sri_matrix)))
  = 4%nat.
Proof. rewrite sri_pca_length. reflexivity. Qed.

Lemma build_sri_sign_reverses_witness :
  exists nb1 nb2,
    let index2 :=
      Machine.MinMaxScaler_fit_transform
        (Machine.rounded Samples.round_down) 0 100 (sri_raw nb2) in
    (forall a b, a <= b -> Samples.round_down a <= Samples.round_down b)
    /\ Samples.round_down 0 = 0
    /\ (forall a, Samples.round_down (- Samples.round_down a)
                  = - Samples.round_down a)
    /\ (forall Z, transformed (Samples.neg_pca Z)
                  = map Ropp (transformed (Samples.sri_pca Z)))
    /\ build_sri Samples.sri_pca Samples.sri_input = inr nb1
    /\ build_sri Samples.neg_pca Samples.sri_input = inr nb2
    /\ (0 < length (sri_raw nb1))%nat /\ (1 < length (sri_raw nb1))%nat
    /\ sri_raw nb2 = map Ropp (sri_raw nb1)
    /\ (nth 0 (sri_raw nb1) 0 <= nth 1 (sri_raw nb1) 0 ->
        nth 1 index2 0 <= nth 0 index2 0)
    /\ (nth 0 (sri_raw nb1) 0 = data_max (sri_raw nb1) ->
        nth 0 index2 0 = 0).
Proof.
  destruct sri_sample_run as [df1 H1].
  destruct neg_sample_run as [df2 H2].
  eexists. eexists. intros index2.
  assert (L0 : (0 < length (transformed
                              (Samples.sri_pca
                                 (map standardize Samples.sri_matrix))))%nat)
    by (rewrite sri_scores_length; lia).
  assert (L1 : (1 < length (transformed
                              (Samples.sri_pca
                                 (map standardize Samples.sri_matrix))))%nat)
    by (rewrite sri_scores_length; lia).
  split; [exact round_down_mono|]. split; [exact round_down_zero|].
  split; [exact round_down_opp|]. split; [exact neg_pca_opposite|].
  split; [exact H1|]. split; [exact H2|].
  split; [exact L0|]. split; [exact L1|].
  exact (@build_sri_sign_reverses Samples.round_down Samples.sri_pca
           Samples.neg_pca Samples.sri_input _ _ 0%nat 1%nat
           round_down_mono round_down_zero round_down_opp
           neg_pca_opposite H1 H2 L0 L1).
Defined.

(** *** The rescaling on binary64 floats *)


(** C10, the claim refuted: the raw factors 0.5 and 0.5000000000000001
    differ, and the binary64 rescaling gives 43.75 to both: the index of
    the larger one is at most the index of the smaller one. *)
Lemma rescale_ties_distinct_factors :
  let xs := Samples.close_scores in
  let sri :=
    Machine.MinMaxScaler_fit_transform Machine.binary64 0%float 100%float
      xs in
  PrimFloat.ltb (Machine.data_min Machine.binary64 xs)
                (Machine.data_max Machine.binary64 xs) = true
  /\ sri = [0%float; 43.75%float; 43.75%float; 100%float]
  /\ PrimFloat.leb (nth 2 sri 0%float) (nth 1 sri 0%float) = true
  /\ PrimFloat.leb (nth 2 xs 0%float) (nth 1 xs 0%float) = false.
Proof. vm_compute. repeat split. Qed.

(** Far from zero the rounding of [x * scale_] is coarse: two raw
    factors 2 apart near 10^16 are rescaled to 0 and 128. *)
Example rescale_far_scores :
  Machine.MinMaxScaler_fit_transform Machine.binary64 0%float 100%float
    Samples.far_scores
  = [0%float; 128%float].
Proof. vm_compute. reflexivity. Qed.

(** Centring a column constant at 0.1 over three rows: the mean of the
    floats is not the float 0.1, and what is left is not 0. *)
Example subtract_mean_tenths :
  Machine.mean Machine.binary64 Samples.tenths
  = 0.10000000000000002%float
  /\ Machine.subtract_mean Machine.binary64 Samples.tenths
     = [(-1.3877787807814457e-17)%float;
        (-1.3877787807814457e-17)%float;
        (-1.3877787807814457e-17)%float].
Proof. vm_compute. split; reflexivity. Qed.

End MachineFacts.
